(** * The lifecycle state machine of [mdp.signal_node.Node] and [Cumulator]

    A shallow embedding of [src/mdp/signal_node.py].  A node is a record of
    the attributes the Python object carries; every method is a computation
    in a small state-and-exception monad in which a raised exception keeps
    the state reached so far, because Python never rolls an object back. *)

From Stdlib Require Import String ZArith List Bool Arith Lia.
From Stdlib Require DecimalString DecimalNat.
Import ListNotations.

Set Implicit Arguments.

(* ================================================================== *)
(** * Exceptions *)
(* ================================================================== *)

(** numpy dtypes are identified by their canonical name, so [numx.dtype t]
    is the identity here. *)
Definition dtype : Type := string.

Definition dtype_eqb (a b : dtype) : bool := String.eqb a b.

(** The messages [NodeException] is raised with (one constructor per
    [raise] site; the formatted values are kept as arguments). *)
Inductive node_error : Type :=
| InputDimAlreadySet (current given : nat)
| OutputDimAlreadySet (current given : nat)
| DtypeAlreadySet (current given : dtype)
| DtypeNotSupported (t : dtype)
| XRank (rank : nat)
| XDimension (got expected : nat)
| XNoObservation
| YRank (rank : nat)
| YDimension (got expected : nat)
| InputDimUndefined.

(** The two messages of a plain [TrainingException]. *)
Inductive training_error : Type :=
| NodeNotTrained
| PhasesNotCompleted.

Inductive exn : Type :=
| NodeException (m : node_error)
| TrainingException (m : training_error)
| TrainingFinishedException
| IsNotTrainableException
| IsNotInvertibleException
| NotImplementedError
| IndexError
| TypeError
| AttributeError
| ValueError
| UserException (code : nat).

(* ================================================================== *)
(** * The array backend [numx] *)
(* ================================================================== *)

(** What the code uses of the array backend but does not define. *)
Class Numx : Type := {
  scalar : Type;
  (** conversion of one element to a dtype ([ndarray.astype]) *)
  astype : dtype -> scalar -> scalar;
  (** [numx.dtype(None)] *)
  default_dtype : dtype;
  (** [mdp.utils.get_dtypes('All')] *)
  all_dtypes : list dtype
}.

(** An [ndarray]: element type, shape and the elements in row-major
    order. *)
Record ndarray `{Numx} : Type := mk_ndarray {
  arr_dtype : dtype;
  shape : list nat;
  items : list scalar
}.

Arguments mk_ndarray {_} arr_dtype shape items.

Section Arrays.
Context `{Numx}.

Definition ndim (x : ndarray) : nat := length (shape x).

(** [x.shape[i]]; only used after the rank was checked. *)
Definition shape_at (x : ndarray) (i : nat) : nat := nth i (shape x) 0.

(** The number of elements a shape holds. *)
Definition size_of (sh : list nat) : nat := fold_right Nat.mul 1 sh.

(** An array holds as many elements as its shape says. *)
Definition well_formed (x : ndarray) : Prop :=
  length (items x) = size_of (shape x).

Definition nd_astype (x : ndarray) (t : dtype) : ndarray :=
  mk_ndarray t (shape x) (map (astype t) (items x)).

(** Modelled from the spec: [mdp.utils.refcast], which is not under src/.
    "Casts x to the node's dtype"; an array that already has the dtype is
    returned as it is.  An unset dtype stands for the backend's default. *)
Definition refcast (x : ndarray) (t : option dtype) : ndarray :=
  let t := match t with Some t => t | None => default_dtype end in
  if dtype_eqb (arr_dtype x) t then x else nd_astype x t.

(** [x.ravel().tolist()] *)
Definition ravel_tolist (x : ndarray) : list scalar := items x.

(** [numx.array(l, dtype = t)] on a flat Python list. *)
Definition numx_array (l : list scalar) (t : option dtype) : ndarray :=
  let t := match t with Some t => t | None => default_dtype end in
  mk_ndarray t [length l] (map (astype t) l).

(** The rows of a two-dimensional array. *)
Fixpoint chunks (rows cols : nat) (l : list scalar) : list (list scalar) :=
  match rows with
  | O => []
  | S r => firstn cols l :: chunks r cols (skipn cols l)
  end.

Definition rows_of (x : ndarray) : list (list scalar) :=
  chunks (shape_at x 0) (shape_at x 1) (items x).
End Arrays.

(* ================================================================== *)
(** * State and exceptions *)
(* ================================================================== *)

(** The result of running a method on an object in state [s]: it returns
    with a value, or an exception leaves it, both in the state reached; the
    third case is a loop that used up its fuel. *)
Inductive outcome (S A : Type) : Type :=
| Returned (a : A) (s : S)
| Raised (e : exn) (s : S)
| OutOfFuel.

Arguments Returned {S A} a s.
Arguments Raised {S A} e s.
Arguments OutOfFuel {S A}.

Definition M (S A : Type) : Type := S -> outcome S A.

Definition ret {S A} (a : A) : M S A := fun s => Returned a s.

Definition bind {S A B} (m : M S A) (k : A -> M S B) : M S B :=
  fun s =>
    match m s with
    | Returned a s' => k a s'
    | Raised e s' => Raised e s'
    | OutOfFuel => OutOfFuel
    end.

Definition raise {S A} (e : exn) : M S A := fun s => Raised e s.
Definition get {S} : M S S := fun s => Returned s s.
Definition modify {S} (f : S -> S) : M S unit := fun s => Returned tt (f s).
Definition pass {S} : M S unit := ret tt.

Declare Scope py_scope.
Delimit Scope py_scope with py.
Notation "x <- m ;; k" := (bind m (fun x => k))
  (at level 61, m at next level, right associativity) : py_scope.
Notation "m ;; k" := (bind m (fun _ => k))
  (at level 61, right associativity) : py_scope.
Open Scope py_scope.

(** What an override point does: it returns or raises, leaving the
    subclass's own attributes in a new state either way. *)
Inductive hook_result (U A : Type) : Type :=
| HReturn (a : A) (u : U)
| HRaise (e : exn) (u : U).

Arguments HReturn {U A} a u.
Arguments HRaise {U A} e u.

(* ================================================================== *)
(** * [class Node] *)
(* ================================================================== *)

(** The attributes [Node.__init__] creates, and [attrs], the attributes a
    subclass adds. *)
Record Node (U : Type) : Type := mkNode {
  _input_dim : option nat;
  _output_dim : option nat;
  _dtype : option dtype;
  _training : bool;
  _train_phase : Z;
  _train_phase_started : bool;
  attrs : U
}.

Arguments mkNode {U}.

Section NodeAttributes.
Context {U : Type}.

Definition with_input_dim (n : option nat) (s : Node U) : Node U :=
  mkNode n (_output_dim s) (_dtype s) (_training s) (_train_phase s)
         (_train_phase_started s) (attrs s).

Definition with_output_dim (n : option nat) (s : Node U) : Node U :=
  mkNode (_input_dim s) n (_dtype s) (_training s) (_train_phase s)
         (_train_phase_started s) (attrs s).

Definition with_dtype (t : option dtype) (s : Node U) : Node U :=
  mkNode (_input_dim s) (_output_dim s) t (_training s) (_train_phase s)
         (_train_phase_started s) (attrs s).

Definition with_training (b : bool) (s : Node U) : Node U :=
  mkNode (_input_dim s) (_output_dim s) (_dtype s) b (_train_phase s)
         (_train_phase_started s) (attrs s).

Definition with_train_phase (i : Z) (s : Node U) : Node U :=
  mkNode (_input_dim s) (_output_dim s) (_dtype s) (_training s) i
         (_train_phase_started s) (attrs s).

Definition with_train_phase_started (b : bool) (s : Node U) : Node U :=
  mkNode (_input_dim s) (_output_dim s) (_dtype s) (_training s)
         (_train_phase s) b (attrs s).

Definition with_attrs (u : U) (s : Node U) : Node U :=
  mkNode (_input_dim s) (_output_dim s) (_dtype s) (_training s)
         (_train_phase s) (_train_phase_started s) u.

(** Calling an override point: it reads the node and owns [attrs]. *)
Definition call {A} (h : Node U -> hook_result U A) : M (Node U) A :=
  fun s =>
    match h s with
    | HReturn a u => Returned a (with_attrs u s)
    | HRaise e u => Raised e (with_attrs u s)
    end.
End NodeAttributes.

(** [l[i]] on a Python list: a negative index counts from the end. *)
Definition py_index {A} (l : list A) (i : Z) : option A :=
  let n := Z.of_nat (length l) in
  if (0 <=? i)%Z && (i <? n)%Z then nth_error l (Z.to_nat i)
  else if (- n <=? i)%Z && (i <? 0)%Z then nth_error l (Z.to_nat (n + i))
  else None.

Section NodeClass.
Context `{Numx}.

(** The methods a subclass may overwrite (class docstring of [Node]):
    [is_trainable], [_train], [_stop_training], [_execute],
    [is_invertible], [_inverse], [_get_train_seq],
    [_get_supported_dtypes], and [_check_train_args].  An override point
    reads the whole node and writes the attributes its class adds; the
    attributes of [Node] are written by the methods of [Node] alone.  What
    it has done to its attributes stays when it raises.  The extra
    positional and keyword arguments, which [Node] hands through
    untouched, are left out. *)
Record NodeClass (U : Type) : Type := mkClass {
  is_trainable : bool;
  is_invertible : bool;
  _get_supported_dtypes : list dtype;
  _get_train_seq :
    list ((ndarray -> Node U -> hook_result U unit)
          * (Node U -> hook_result U unit));
  _check_train_args : ndarray -> Node U -> hook_result U unit;
  _execute : ndarray -> Node U -> hook_result U ndarray;
  _inverse : ndarray -> Node U -> hook_result U (option ndarray)
}.

Section Methods.
Context {U : Type} (cls : NodeClass U).

Local Abbreviation node := (Node U).

(** ** properties *)

Definition get_supported_dtypes : list dtype := _get_supported_dtypes cls.

Definition set_input_dim (n : option nat) : M node unit :=
  s <- get ;;
  match n with
  | None => pass
  | Some n' =>
      match _input_dim s with
      | Some cur =>
          if negb (cur =? n')
          then raise (NodeException (InputDimAlreadySet cur n'))
          else modify (with_input_dim n)
      | None => modify (with_input_dim n)
      end
  end.

Definition set_output_dim (n : option nat) : M node unit :=
  s <- get ;;
  match n with
  | None => pass
  | Some n' =>
      match _output_dim s with
      | Some cur =>
          if negb (cur =? n')
          then raise (NodeException (OutputDimAlreadySet cur n'))
          else modify (with_output_dim n)
      | None => modify (with_output_dim n)
      end
  end.

Definition dtype_is_set_to_other (s : node) (t : dtype) : bool :=
  match _dtype s with
  | Some cur => negb (dtype_eqb cur t)
  | None => false
  end.

Definition set_dtype (t : option dtype) : M node unit :=
  s <- get ;;
  match t with
  | None => pass
  | Some t' =>
      if dtype_is_set_to_other s t'
      then raise (NodeException
                    (DtypeAlreadySet
                       (match _dtype s with Some c => c | None => t' end)
                       t'))
      else if negb (existsb (dtype_eqb t') get_supported_dtypes)
      then raise (NodeException (DtypeNotSupported t'))
      else modify (with_dtype t)
  end.

(** ** Node states *)

Definition is_training (s : node) : bool := _training s.

Definition get_current_train_phase (s : node) : Z := _train_phase s.

Definition get_remaining_train_phase (s : node) : Z :=
  (Z.of_nat (length (_get_train_seq cls)) - _train_phase s)%Z.

(** ** [__init__] *)

(** The attributes before [__init__] has run; the three lifecycle
    attributes do not exist yet and are all assigned by [__init__]. *)
Definition blank (u : U) : node := mkNode None None None false 0 false u.

Definition __init__ (input_dim output_dim : option nat)
           (dt : option dtype) : M node unit :=
  set_input_dim input_dim ;;
  set_output_dim output_dim ;;
  set_dtype dt ;;
  if negb (is_trainable cls)
  then
    modify (with_training false) ;;
    modify (with_train_phase (-1)) ;;
    modify (with_train_phase_started false)
  else
    modify (with_train_phase 0) ;;
    modify (with_train_phase_started false) ;;
    modify (with_training true).

(** ** check functions *)

Definition _check_input (x : ndarray) : M node unit :=
  (if negb (ndim x =? 2) then raise (NodeException (XRank (ndim x)))
   else pass) ;;
  (s <- get ;;
   match _input_dim s with
   | None => set_input_dim (Some (shape_at x 1))
   | Some _ => pass
   end) ;;
  (s <- get ;;
   match _dtype s with
   | None => set_dtype (Some (arr_dtype x))
   | Some _ => pass
   end) ;;
  (s <- get ;;
   match _input_dim s with
   | Some d =>
       if negb (shape_at x 1 =? d)
       then raise (NodeException (XDimension (shape_at x 1) d))
       else pass
   | None => raise TypeError
   end) ;;
  if shape_at x 0 =? 0 then raise (NodeException XNoObservation)
  else pass.

Definition _check_output (y : ndarray) : M node unit :=
  (if negb (ndim y =? 2) then raise (NodeException (YRank (ndim y)))
   else pass) ;;
  s <- get ;;
  match _output_dim s with
  | Some d =>
      if negb (shape_at y 1 =? d)
      then raise (NodeException (YDimension (shape_at y 1) d))
      else pass
  | None => raise TypeError
  end.

(** ** User interface to the overwritten methods *)

Definition current_phase (s : node) :
  M node ((ndarray -> node -> hook_result U unit)
          * (node -> hook_result U unit)) :=
  match py_index (_get_train_seq cls) (_train_phase s) with
  | Some p => ret p
  | None => raise IndexError
  end.

Definition train (x : ndarray) : M node unit :=
  (if negb (is_trainable cls) then raise IsNotTrainableException
   else pass) ;;
  (s <- get ;;
   if negb (is_training s) then raise TrainingFinishedException
   else pass) ;;
  _check_input x ;;
  call (_check_train_args cls x) ;;
  modify (with_train_phase_started true) ;;
  s <- get ;;
  p <- current_phase s ;;
  call (fst p (refcast x (_dtype s))).

Definition stop_training : M node unit :=
  (s <- get ;;
   if is_training s && Bool.eqb (_train_phase_started s) false
   then raise (TrainingException NodeNotTrained)
   else pass) ;;
  (s <- get ;;
   if negb (is_training s) then raise TrainingFinishedException
   else pass) ;;
  s <- get ;;
  p <- current_phase s ;;
  call (snd p) ;;
  s <- get ;;
  modify (with_train_phase (_train_phase s + 1)) ;;
  modify (with_train_phase_started false) ;;
  s <- get ;;
  if (get_remaining_train_phase s =? 0)%Z
  then modify (with_training false)
  else pass.

Definition _if_training_stop_training : M node unit :=
  s <- get ;;
  if is_training s
  then
    stop_training ;;
    s <- get ;;
    if (get_remaining_train_phase s >? 0)%Z
    then raise (TrainingException PhasesNotCompleted)
    else pass
  else pass.

(** The [while True] loop of [_pre_execution_checks]. *)
Fixpoint train_all_but_last (fuel : nat) (x : ndarray) : M node unit :=
  match fuel with
  | O => fun _ => OutOfFuel
  | S fuel' =>
      train x ;;
      s <- get ;;
      if (get_remaining_train_phase s >? 1)%Z
      then stop_training ;; train_all_but_last fuel' x
      else pass
  end.

(** Every turn of the loop but the last closes one phase, so one turn
    more than there are phases is enough. *)
Definition loop_fuel : nat := S (length (_get_train_seq cls)).

Definition _pre_execution_checks (x : ndarray) : M node unit :=
  (s <- get ;;
   if (get_current_train_phase s =? 0)%Z
      && negb (_train_phase_started s)
   then train_all_but_last loop_fuel x
   else pass) ;;
  _if_training_stop_training ;;
  _check_input x ;;
  s <- get ;;
  match _output_dim s with
  | None => set_output_dim (_input_dim s)
  | Some _ => pass
  end.

Definition _pre_inversion_checks (y : ndarray) : M node unit :=
  (if negb (is_invertible cls) then raise IsNotInvertibleException
   else pass) ;;
  _if_training_stop_training ;;
  (s <- get ;;
   match _output_dim s with
   | None =>
       match _input_dim s with
       | None => raise (NodeException InputDimUndefined)
       | Some _ => set_output_dim (_input_dim s)
       end
   | Some _ => pass
   end) ;;
  _check_output y.

Definition execute (x : ndarray) : M node ndarray :=
  _pre_execution_checks x ;;
  s <- get ;;
  call (_execute cls (refcast x (_dtype s))).

Definition inverse (y : ndarray) : M node (option ndarray) :=
  _pre_inversion_checks y ;;
  s <- get ;;
  call (_inverse cls (refcast y (_dtype s))).
End Methods.

(** ** Methods to be implemented by the user: the defaults of [Node] *)

Section Defaults.
Context {U : Type}.

Definition Node__train (trainable : bool) (x : ndarray) (s : Node U)
  : hook_result U unit :=
  if trainable then HRaise NotImplementedError (attrs s)
  else HReturn tt (attrs s).

Definition Node__stop_training (s : Node U) : hook_result U unit :=
  HReturn tt (attrs s).

Definition Node__execute (x : ndarray) (s : Node U)
  : hook_result U ndarray :=
  HReturn x (attrs s).

Definition Node__inverse (invertible : bool) (x : ndarray) (s : Node U)
  : hook_result U (option ndarray) :=
  if invertible then HReturn (Some x) (attrs s)
  else HReturn None (attrs s).

Definition Node__check_train_args (x : ndarray) (s : Node U)
  : hook_result U unit :=
  HReturn tt (attrs s).
End Defaults.

(** [class Node(object)] as it stands: trainable, invertible, one phase. *)
Definition Node_class : NodeClass unit :=
  mkClass true true all_dtypes
          [(Node__train true, Node__stop_training)]
          Node__check_train_args Node__execute (Node__inverse true).
End NodeClass.

(* ================================================================== *)
(** * [class Cumulator(Node)] *)
(* ================================================================== *)

(** [self.data] is a Python list while the node is trained and an array
    once [_stop_training] has run. *)
Inductive cumulator_data `{Numx} : Type :=
| DataList (l : list scalar)
| DataArray (a : ndarray).

Record CumulatorAttrs `{Numx} : Type := mkCumulator {
  data : cumulator_data;
  tlen : nat
}.

Arguments mkCumulator {_} data tlen.

Section CumulatorClass.
Context `{Numx}.

Definition Cumulator__train (x : ndarray) (s : Node CumulatorAttrs)
  : hook_result CumulatorAttrs unit :=
  let n := tlen (attrs s) + shape_at x 0 in
  match data (attrs s) with
  | DataList l => HReturn tt (mkCumulator (DataList (l ++ ravel_tolist x)) n)
  | DataArray a => HRaise AttributeError (mkCumulator (DataArray a) n)
  end.

Definition Cumulator__stop_training (s : Node CumulatorAttrs)
  : hook_result CumulatorAttrs unit :=
  let a :=
    match data (attrs s) with
    | DataList l => numx_array l (_dtype s)
    | DataArray a =>
        nd_astype a (match _dtype s with Some t => t | None => arr_dtype a end)
    end in
  let n := tlen (attrs s) in
  match _input_dim s with
  | None => HRaise TypeError (mkCumulator (DataArray a) n)
  | Some d =>
      if size_of [n; d] =? length (items a)
      then HReturn tt (mkCumulator
                         (DataArray (mk_ndarray (arr_dtype a) [n; d] (items a)))
                         n)
      else HRaise ValueError (mkCumulator (DataArray a) n)
  end.

Definition Cumulator_class : NodeClass CumulatorAttrs :=
  mkClass true true all_dtypes
          [(Cumulator__train, Cumulator__stop_training)]
          Node__check_train_args Node__execute (Node__inverse true).

Definition Cumulator___init__ (input_dim output_dim : option nat)
           (dt : option dtype) : M (Node CumulatorAttrs) unit :=
  __init__ Cumulator_class input_dim output_dim dt ;;
  modify (fun s => with_attrs (mkCumulator (DataList []) (tlen (attrs s))) s) ;;
  modify (fun s => with_attrs (mkCumulator (data (attrs s)) 0) s).

(** The attributes of a [Cumulator] before its [__init__] has run. *)
Definition Cumulator_blank : Node CumulatorAttrs :=
  blank (mkCumulator (DataList []) 0).

(** Several [train] calls in a row, one per batch. *)
Fixpoint train_batches {U} (cls : NodeClass U) (xs : list ndarray)
  : M (Node U) unit :=
  match xs with
  | [] => pass
  | x :: rest => train cls x ;; train_batches cls rest
  end.
End CumulatorClass.

(* ================================================================== *)
(** * Call sequences *)
(* ================================================================== *)

(** The four public operations. *)
Inductive operation `{Numx} : Type :=
| Train (x : ndarray)
| StopTraining
| Execute (x : ndarray)
| Inverse (y : ndarray).

(** The state an outcome leaves the object in. *)
Definition state_after {S A} (o : outcome S A) (s : S) : S :=
  match o with
  | Returned _ s' => s'
  | Raised _ s' => s'
  | OutOfFuel => s
  end.

Definition returned {S A} (o : outcome S A) : bool :=
  match o with Returned _ _ => true | _ => false end.

Section CallSequences.
Context `{Numx} {U : Type} (cls : NodeClass U).

(** A caller performs an operation and goes on with the same object,
    whether the operation returned or raised. *)
Definition perform (op : operation) (s : Node U) : Node U :=
  match op with
  | Train x => state_after (train cls x s) s
  | StopTraining => state_after (stop_training cls s) s
  | Execute x => state_after (execute cls x s) s
  | Inverse y => state_after (inverse cls y s) s
  end.

Definition perform_all (ops : list operation) (s : Node U) : Node U :=
  fold_left (fun s op => perform op s) ops s.

(** The [stop_training] calls of a caller that returned, in a sequence of
    [train] and [stop_training] calls. *)
Fixpoint stops_returned (ops : list operation) (s : Node U) : nat :=
  match ops with
  | [] => 0
  | op :: rest =>
      (match op with
       | StopTraining => if returned (stop_training cls s) then 1 else 0
       | _ => 0
       end) + stops_returned rest (perform op s)
  end.

Definition train_or_stop (op : operation) : bool :=
  match op with
  | Train _ | StopTraining => true
  | _ => false
  end.

(** A node as a successful [__init__] leaves it. *)
Definition fresh (s : Node U) : Prop :=
  exists input_dim output_dim dt u,
    __init__ cls input_dim output_dim dt (blank u) = Returned tt s.

(** The states a caller can bring a node to. *)
Definition reachable (s : Node U) : Prop :=
  exists s0 ops, fresh s0 /\ s = perform_all ops s0.
End CallSequences.

(* ================================================================== *)
(** * A concrete backend and sample data *)
(* ================================================================== *)

Definition bool_ : dtype := "bool"%string.
Definition int32 : dtype := "int32"%string.
Definition int64 : dtype := "int64"%string.
Definition float32 : dtype := "float32"%string.
Definition float64 : dtype := "float64"%string.

(** Integers as elements; conversion to [bool_] maps every nonzero value
    to 1, every other conversion keeps the value. *)
Definition numx_Z : Numx := {|
  scalar := Z;
  astype := fun t v =>
    if dtype_eqb t bool_ then (if (v =? 0)%Z then 0%Z else 1%Z) else v;
  default_dtype := float64;
  all_dtypes := [bool_; int32; int64; float32; float64]
|}.

Module Samples.
#[local] Existing Instance numx_Z.

Definition batch_3x2 : ndarray :=
  mk_ndarray float64 [3; 2] [1; 2; 3; 4; 5; 6]%Z.

Definition batch_5x2 : ndarray :=
  mk_ndarray float64 [5; 2] [7; 8; 9; 10; 11; 12; 13; 14; 15; 16]%Z.

Definition batch_3x3 : ndarray :=
  mk_ndarray float64 [3; 3] [1; 2; 3; 4; 5; 6; 7; 8; 9]%Z.

Definition int_batch_3x2 : ndarray :=
  mk_ndarray int32 [3; 2] [1; 2; 3; 4; 5; 6]%Z.

Definition empty_0x2 : ndarray := mk_ndarray float64 [0; 2] [].

Definition empty_0x3 : ndarray := mk_ndarray float64 [0; 3] [].

(** A [Cumulator] subclass that declares float64 as its only dtype. *)
Definition FloatCumulator : NodeClass CumulatorAttrs :=
  mkClass true true [float64]
          [(Cumulator__train, Cumulator__stop_training)]
          Node__check_train_args Node__execute (Node__inverse true).

(** A node that is neither trainable nor overrides anything else. *)
Definition FixedNode : NodeClass unit :=
  mkClass false true all_dtypes
          [(Node__train false, Node__stop_training)]
          Node__check_train_args Node__execute (Node__inverse true).

(** A trainable node that declares no training phase at all. *)
Definition NoPhaseNode : NodeClass unit :=
  mkClass true true all_dtypes [] Node__check_train_args Node__execute
          (Node__inverse true).

(** A [Cumulator] with a second, empty phase. *)
Definition TwoPhaseCumulator : NodeClass CumulatorAttrs :=
  mkClass true true all_dtypes
          [(Cumulator__train, Cumulator__stop_training);
           (fun _ s => HReturn tt (attrs s), Node__stop_training)]
          Node__check_train_args Node__execute (Node__inverse true).

(** [Cumulator()] and the other sample nodes, just constructed. *)
Definition new_cumulator : Node CumulatorAttrs :=
  state_after (Cumulator___init__ None None None Cumulator_blank)
              Cumulator_blank.

Definition new_float_cumulator : Node CumulatorAttrs :=
  state_after (__init__ FloatCumulator None None None Cumulator_blank)
              Cumulator_blank.

Definition new_fixed_node : Node unit :=
  state_after (__init__ FixedNode None None None (blank tt)) (blank tt).

Definition new_node : Node unit :=
  state_after (__init__ Node_class None None None (blank tt)) (blank tt).

(** A [Cumulator] after one [train] call with [batch_3x2]. *)
Definition cumulator_trained_once : Node CumulatorAttrs :=
  state_after (train Cumulator_class batch_3x2 new_cumulator) new_cumulator.
End Samples.

(* ================================================================== *)
(** * Vocabulary of the statements *)
(* ================================================================== *)

(** [m] relates the state it starts in to the state it ends in by [R],
    whether it returns or raises. *)
Definition ensures {S A} (R : S -> S -> Prop) (m : M S A) : Prop :=
  forall s,
    match m s with
    | Returned _ s' => R s s'
    | Raised _ s' => R s s'
    | OutOfFuel => True
    end.

(** [m] keeps the property [P] of the state, whether it returns or
    raises. *)
Definition preserves {S A} (P : S -> Prop) (m : M S A) : Prop :=
  forall s,
    P s ->
    match m s with
    | Returned _ s' => P s'
    | Raised _ s' => P s'
    | OutOfFuel => True
    end.

(** The state an outcome ends in has the property [Q]. *)
Definition lands_in {S A} (Q : S -> Prop) (o : outcome S A) : Prop :=
  match o with
  | Returned _ s' => Q s'
  | Raised _ s' => Q s'
  | OutOfFuel => True
  end.

(** [m] does not run out of fuel. *)
Definition total {S A} (m : M S A) : Prop := forall s, m s <> OutOfFuel.

Section Vocabulary.
Context `{Numx} {U : Type}.

(** A value that is set stays as it is. *)
Definition keeps_locks (s s' : Node U) : Prop :=
  (forall c, _input_dim s = Some c -> _input_dim s' = Some c)
  /\ (forall c, _output_dim s = Some c -> _output_dim s' = Some c)
  /\ (forall t, _dtype s = Some t -> _dtype s' = Some t).

(** Nothing but [input_dim] and [dtype] differs, and these only by going
    from unset to set. *)
Definition only_locks (s s' : Node U) : Prop :=
  (_input_dim s' = _input_dim s \/ _input_dim s = None)
  /\ (_dtype s' = _dtype s \/ _dtype s = None)
  /\ _output_dim s' = _output_dim s
  /\ _training s' = _training s
  /\ _train_phase s' = _train_phase s
  /\ _train_phase_started s' = _train_phase_started s
  /\ attrs s' = attrs s.

(** What [train] may change: [only_locks], but for [phase_started] and
    the attributes of the subclass. *)
Definition train_frame (s s' : Node U) : Prop :=
  (_input_dim s' = _input_dim s \/ _input_dim s = None)
  /\ (_dtype s' = _dtype s \/ _dtype s = None)
  /\ _output_dim s' = _output_dim s
  /\ _training s' = _training s
  /\ _train_phase s' = _train_phase s.

(** What no operation does: change a set value, step back in the phases,
    or reopen the training. *)
Definition never_back (s s' : Node U) : Prop :=
  keeps_locks s s'
  /\ (_train_phase s <= _train_phase s')%Z
  /\ (_training s = false -> _training s' = false).

(** The lifecycle of a trainable node with at least one phase: the index
    stays within the declared phases and the node is training exactly
    while a phase is left. *)
Definition phase_invariant (cls : NodeClass U) (s : Node U) : Prop :=
  (0 <= _train_phase s <= Z.of_nat (length (_get_train_seq cls)))%Z
  /\ _training s
     = (_train_phase s <? Z.of_nat (length (_get_train_seq cls)))%Z.

(** The state [stop_training] leaves when the stop-step of the current
    phase has returned with the attributes [u]. *)
Definition close_phase (cls : NodeClass U) (u : U) (s : Node U) : Node U :=
  let s1 := with_train_phase_started false
              (with_train_phase (_train_phase s + 1) (with_attrs u s)) in
  if (get_remaining_train_phase cls s1 =? 0)%Z
  then with_training false s1
  else s1.

(** The elements of an array of dtype [t] are values of [t]. *)
Definition well_typed (x : ndarray) : Prop :=
  Forall (fun v => astype (arr_dtype x) v = v) (items x).

(** A batch a node with [c] input columns can be trained with. *)
Definition batch_of (c : nat) (x : ndarray) : Prop :=
  exists r, shape x = [S r; c] /\ well_formed x /\ well_typed x.

(** The rows all batches hold together. *)
Definition total_rows (xs : list ndarray) : nat :=
  fold_right (fun x n => shape_at x 0 + n) 0 xs.

(** A [Cumulator] in its training phase, locked to [c] columns and the
    dtype [t], holding the list [l] of [n] rows. *)
Definition gathering (o : option nat) (c : nat) (t : dtype)
           (l : list scalar) (n : nat) : Node CumulatorAttrs :=
  mkNode (Some c) o (Some t) true 0 true (mkCumulator (DataList l) n).
End Vocabulary.

(** ** States a caller can meet, and arrays put together *)

Section LifecycleVocabulary.
Context `{Numx} {U : Type}.

(** The dtype of the node, when set, is one its class supports. *)
Definition dtype_supported (cls : NodeClass U) (s : Node U) : Prop :=
  forall t,
    _dtype s = Some t ->
    existsb (dtype_eqb t) (get_supported_dtypes cls) = true.

Definition dimensions_known (s : Node U) : Prop :=
  _input_dim s <> None /\ _dtype s <> None.

(** What [train] and [stop_training] keep of the data a node has seen: a
    supported dtype; a started phase only on a node in training; and
    [input_dim] and dtype set as soon as a phase is started or closed. *)
Definition data_invariant (cls : NodeClass U) (s : Node U) : Prop :=
  dtype_supported cls s
  /\ (_train_phase_started s = true ->
      _training s = true /\ dimensions_known s)
  /\ ((0 < _train_phase s)%Z -> dimensions_known s).

(** The lifecycle attributes of a node that is not trainable. *)
Definition outside_training (s : Node U) : Prop :=
  _training s = false /\ _train_phase s = (-1)%Z
  /\ _train_phase_started s = false.

(** No override point of the training and of [execute] ever raises. *)
Definition steps_always_return (cls : NodeClass U) : Prop :=
  (forall x s, exists u, _check_train_args cls x s = HReturn tt u)
  /\ Forall (fun p =>
               (forall x s, exists u, fst p x s = HReturn tt u)
               /\ (forall s, exists u, snd p s = HReturn tt u))
            (_get_train_seq cls)
  /\ (forall x s, exists r u, _execute cls x s = HReturn r u).

(** The rows of [x1] followed by the rows of [x2], two arrays of the same
    dtype and column count. *)
Definition vstack (x1 x2 : ndarray) : ndarray :=
  mk_ndarray (arr_dtype x1)
             [shape_at x1 0 + shape_at x2 0; shape_at x1 1]
             (items x1 ++ items x2).
End LifecycleVocabulary.

Module MoreSamples.
#[local] Existing Instance numx_Z.

(** A node with three training phases that counts the calls of its
    train-steps. *)
Definition CountingNode : NodeClass nat :=
  mkClass true true all_dtypes
          [(fun _ s => HReturn tt (S (attrs s)), Node__stop_training);
           (fun _ s => HReturn tt (S (attrs s)), Node__stop_training);
           (fun _ s => HReturn tt (S (attrs s)), Node__stop_training)]
          Node__check_train_args Node__execute (Node__inverse true).

Definition new_counting_node : Node nat :=
  state_after (__init__ CountingNode None None None (blank 0)) (blank 0).

(** A node that is not trainable, constructed with 2 input and 3 output
    columns. *)
Definition new_fixed_2_to_3 : Node unit :=
  state_after (__init__ Samples.FixedNode (Some 2) (Some 3) None (blank tt))
              (blank tt).

Definition flat_6 : ndarray := mk_ndarray float64 [6] [1; 2; 3; 4; 5; 6]%Z.
End MoreSamples.

(* ================================================================== *)
(** * String representation *)
(* ================================================================== *)

(** [str(n)] of a non-negative int: its decimal digits. *)
Definition str_int (n : nat) : string :=
  DecimalString.NilEmpty.string_of_uint (Nat.to_uint n).

(** [str] of [input_dim] and [output_dim]. *)
Definition str_dim (n : option nat) : string :=
  match n with
  | None => "None"%string
  | Some k => str_int k
  end.

(** [__repr__]; [name] is [type(self).__name__]. *)
Definition __repr__ {U} (name : string) (s : Node U) : string :=
  let inp := ("input_dim=" ++ str_dim (_input_dim s))%string in
  let out := ("output_dim=" ++ str_dim (_output_dim s))%string in
  let typ :=
    match _dtype s with
    | None => "dtype=None"%string
    | Some t => ("dtype='" ++ t ++ "'")%string
    end in
  let args := String.concat ", " [inp; out; typ] in
  (((name ++ "(") ++ args) ++ ")")%string.

(** The character [,] (code 44), and the strings that hold none. *)
Definition comma : Ascii.ascii := Eval cbv in Ascii.ascii_of_nat 44.

Fixpoint no_comma (a : string) : bool :=
  match a with
  | EmptyString => true
  | String c r => negb (Ascii.eqb c comma) && no_comma r
  end.

(* ================================================================== *)
(** * General facts on computations *)
(* ================================================================== *)

Unset Implicit Arguments.

Ltac unfold_monad :=
  unfold pass in *; unfold bind, get, ret, raise, modify, call in *;
  cbn beta in *.

(** Case analysis on whatever a computation branches on, innermost test
    first. *)
Ltac case_step :=
  match goal with
  | |- context [match ?x with _ => _ end] =>
      lazymatch x with
      | context [match _ with _ => _ end] => fail
      | _ => destruct x eqn:?
      end
  | H : context [match ?x with _ => _ end] |- _ =>
      lazymatch x with
      | context [match _ with _ => _ end] => fail
      | _ => destruct x eqn:?
      end
  end.

Ltac split_cases := repeat (simpl in *; case_step); simpl in *.

Ltac invert_outcomes :=
  repeat match goal with
         | E : Returned _ _ = Returned _ _ |- _ => inversion E; subst; clear E
         | E : Raised _ _ = Raised _ _ |- _ => inversion E; subst; clear E
         | E : Returned _ _ = Raised _ _ |- _ => discriminate E
         | E : Raised _ _ = Returned _ _ |- _ => discriminate E
         | E : OutOfFuel = _ |- _ => discriminate E
         | E : _ = OutOfFuel |- _ => discriminate E
         end.

Ltac decide_tests :=
  repeat match goal with
         | E : negb _ = false |- _ => apply negb_false_iff in E
         | E : negb _ = true |- _ => apply negb_true_iff in E
         | E : (_ =? _) = true |- _ => apply Nat.eqb_eq in E
         | E : (_ =? _) = false |- _ => apply Nat.eqb_neq in E
         | E : (_ && _)%bool = true |- _ => apply andb_true_iff in E; destruct E
         end.

Lemma ensures_bind {S A B} (R : S -> S -> Prop) (m : M S A) (k : A -> M S B) :
  (forall a b c, R a b -> R b c -> R a c) ->
  ensures R m -> (forall a, ensures R (k a)) -> ensures R (bind m k).
Proof.
  intros Htrans Hm Hk s. unfold bind.
  specialize (Hm s). destruct (m s) as [a s1|e s1|]; auto.
  specialize (Hk a s1). destruct (k a s1); eauto.
Qed.

Lemma ensures_weaken {S A} (R R' : S -> S -> Prop) (m : M S A) :
  (forall a b, R a b -> R' a b) -> ensures R m -> ensures R' m.
Proof.
  intros Himp Hm s. specialize (Hm s). destruct (m s); auto.
Qed.

Lemma preserves_bind {S A B} (P : S -> Prop) (m : M S A) (k : A -> M S B) :
  preserves P m -> (forall a, preserves P (k a)) -> preserves P (bind m k).
Proof.
  intros Hm Hk s Hs. unfold bind.
  specialize (Hm s Hs). destruct (m s) as [a s1|e s1|]; auto.
  apply (Hk a s1 Hm).
Qed.

Lemma total_bind {S A B} (m : M S A) (k : A -> M S B) :
  total m -> (forall a, total (k a)) -> total (bind m k).
Proof.
  intros Hm Hk s. unfold bind.
  specialize (Hm s).
  destruct (m s) as [a s1|e s1|]; [apply Hk | discriminate | congruence].
Qed.

Section BasicFacts.
Context `{Numx} {U : Type}.

Lemma keeps_locks_refl (s : Node U) : keeps_locks s s.
Proof. repeat split; auto. Qed.

Lemma keeps_locks_trans (a b c : Node U) :
  keeps_locks a b -> keeps_locks b c -> keeps_locks a c.
Proof.
  intros (Hi & Ho & Hd) (Hi' & Ho' & Hd'). repeat split; auto.
Qed.

Lemma never_back_refl (s : Node U) : never_back s s.
Proof.
  split; [apply keeps_locks_refl | split; [lia | auto]].
Qed.

Lemma never_back_trans (a b c : Node U) :
  never_back a b -> never_back b c -> never_back a c.
Proof.
  intros (Hl & Hp & Ht) (Hl' & Hp' & Ht').
  split; [eapply keeps_locks_trans; eauto | split; [lia | auto]].
Qed.

Lemma train_frame_never_back (s s' : Node U) :
  train_frame s s' -> never_back s s'.
Proof.
  intros (Hi & Hd & Ho & Ht & Hp).
  split; [split; [|split] | split].
  - intros c Hc. destruct Hi; congruence.
  - intros c Hc. congruence.
  - intros t Hc. destruct Hd; congruence.
  - lia.
  - congruence.
Qed.

Lemma only_locks_train_frame (s s' : Node U) :
  only_locks s s' -> train_frame s s'.
Proof.
  intros (Hi & Hd & Ho & Ht & Hp & _). repeat split; auto.
Qed.

Lemma with_output_dim_same (s : Node U) d :
  _output_dim s = Some d -> with_output_dim (Some d) s = s.
Proof. destruct s; simpl; intros ->; reflexivity. Qed.

Lemma with_attrs_same (s : Node U) : with_attrs (attrs s) s = s.
Proof. destruct s; reflexivity. Qed.
End BasicFacts.

(* ================================================================== *)
(** * What each operation does to the state *)
(* ================================================================== *)

Section OperationFacts.
Context `{Numx} {U : Type} (cls : NodeClass U).

Lemma _check_input_frame (x : ndarray) : ensures only_locks (_check_input cls x).
Proof.
  intros s. unfold _check_input, set_input_dim, set_dtype. unfold_monad.
  split_cases; unfold only_locks; simpl; try tauto; try congruence.
Qed.

Lemma _check_input_returned (x : ndarray) (s s' : Node U) :
  _check_input cls x s = Returned tt s' ->
  ndim x = 2 /\ _input_dim s' = Some (shape_at x 1) /\ _dtype s' <> None
  /\ shape_at x 0 <> 0.
Proof.
  unfold _check_input, set_input_dim, set_dtype. unfold_monad.
  intros Hrun. split_cases; invert_outcomes; decide_tests; simpl.
  all: repeat split; try congruence.
Qed.

Lemma train_ensures_frame (x : ndarray) : ensures train_frame (train cls x).
Proof.
  intros s. unfold train, current_phase, is_training. 
  pose proof (_check_input_frame x s) as Hc.
  unfold_monad.
  destruct (negb (is_trainable cls)); simpl.
  { unfold train_frame; tauto. }
  destruct (negb (_training s)); simpl.
  { unfold train_frame; tauto. }
  destruct (_check_input cls x s) as [[] s1|e s1|]; auto.
  2:{ apply only_locks_train_frame; auto. }
  apply only_locks_train_frame in Hc. unfold train_frame in *.
  split_cases; tauto.
Qed.

Lemma train_returned (x : ndarray) (s s' : Node U) :
  train cls x s = Returned tt s' ->
  is_trainable cls = true /\ _training s = true
  /\ _train_phase_started s' = true
  /\ _input_dim s' = Some (shape_at x 1) /\ _dtype s' <> None
  /\ ndim x = 2 /\ shape_at x 0 <> 0.
Proof.
  unfold train, current_phase, is_training. unfold_monad.
  intros Hrun.
  destruct (is_trainable cls); simpl in *; [|discriminate].
  destruct (_training s); simpl in *; [|discriminate].
  destruct (_check_input cls x s) as [[] s1|e s1|] eqn:Hc; try discriminate.
  apply _check_input_returned in Hc. destruct Hc as (Hn & Hi & Hd & Hr).
  split_cases; invert_outcomes; simpl; tauto.
Qed.

(** A [train] that raises either left [phase_started] and the attributes
    of the subclass alone, or had passed the validation of its input. *)
Lemma train_raised (x : ndarray) (s s' : Node U) (e : exn) :
  train cls x s = Raised e s' ->
  only_locks s s'
  \/ exists s1, _check_input cls x s = Returned tt s1.
Proof.
  unfold train, current_phase, is_training. unfold_monad.
  intros Hrun.
  pose proof (_check_input_frame x s) as Hc.
  destruct (negb (is_trainable cls)); simpl in *.
  { invert_outcomes. left. unfold only_locks. tauto. }
  destruct (negb (_training s)); simpl in *.
  { invert_outcomes. left. unfold only_locks. tauto. }
  destruct (_check_input cls x s) as [[] s1|e1 s1|]; try discriminate.
  - right. eauto.
  - invert_outcomes. left. assumption.
Qed.

Lemma stop_training_returned (s s' : Node U) :
  stop_training cls s = Returned tt s' ->
  _training s = true /\ _train_phase_started s = true
  /\ _train_phase s' = (_train_phase s + 1)%Z
  /\ _train_phase_started s' = false
  /\ _training s' = negb (get_remaining_train_phase cls s' =? 0)%Z
  /\ _input_dim s' = _input_dim s /\ _output_dim s' = _output_dim s
  /\ _dtype s' = _dtype s.
Proof.
  unfold stop_training, current_phase, is_training, get_remaining_train_phase.
  unfold_monad. intros Hrun.
  split_cases; invert_outcomes; simpl.
  all: destruct (_training s); destruct (_train_phase_started s);
    simpl in *; try discriminate.
  all: repeat split; auto.
  all: try (symmetry; apply negb_false_iff; assumption).
  all: try (symmetry; apply negb_true_iff; assumption).
Qed.

Lemma stop_training_raised (s s' : Node U) (e : exn) :
  stop_training cls s = Raised e s' -> s' = with_attrs (attrs s') s.
Proof.
  unfold stop_training, current_phase, is_training, get_remaining_train_phase.
  unfold_monad. intros Hrun.
  split_cases; invert_outcomes; simpl; try rewrite with_attrs_same; auto.
Qed.

Lemma stop_training_never_back : ensures never_back (stop_training cls).
Proof.
  intros s. destruct (stop_training cls s) as [[] s'|e s'|] eqn:Hrun; auto.
  - apply stop_training_returned in Hrun.
    destruct Hrun as (Ht & Hs & Hp & _ & _ & Hi & Ho & Hd).
    repeat split; try congruence; try lia.
  - apply stop_training_raised in Hrun. rewrite Hrun.
    repeat split; simpl; auto; lia.
Qed.

Lemma train_never_back (x : ndarray) : ensures never_back (train cls x).
Proof.
  eapply ensures_weaken; [apply train_frame_never_back | apply train_ensures_frame].
Qed.

Lemma _check_input_never_back (x : ndarray) :
  ensures never_back (_check_input cls x).
Proof.
  eapply ensures_weaken; [| apply _check_input_frame].
  intros a b Hab. apply train_frame_never_back, only_locks_train_frame, Hab.
Qed.

Lemma _if_training_stop_training_never_back :
  ensures never_back (_if_training_stop_training cls).
Proof.
  intros s. unfold _if_training_stop_training, is_training. unfold_monad.
  pose proof (stop_training_never_back s) as Hstop.
  destruct (_training s); [|apply never_back_refl].
  destruct (stop_training cls s) as [[] s1|e s1|]; auto.
  split_cases; auto.
Qed.

Lemma train_all_but_last_never_back (fuel : nat) (x : ndarray) :
  ensures never_back (train_all_but_last cls fuel x).
Proof.
  induction fuel as [|fuel IH]; simpl; [intros s; exact I|].
  apply ensures_bind; [apply never_back_trans | apply train_never_back |].
  intros _ s. unfold_monad.
  destruct (get_remaining_train_phase cls s >? 1)%Z; [|apply never_back_refl].
  pose proof (stop_training_never_back s) as Hstop.
  destruct (stop_training cls s) as [[] s1|e s1|]; auto.
  specialize (IH s1).
  destruct (train_all_but_last cls fuel x s1); auto;
    eapply never_back_trans; eauto.
Qed.

Lemma set_output_dim_never_back (n : option nat) :
  ensures never_back (@set_output_dim U n).
Proof.
  intros s. unfold set_output_dim. unfold_monad.
  split_cases; decide_tests; subst; try apply never_back_refl.
  - rewrite with_output_dim_same by assumption. apply never_back_refl.
  - repeat split; simpl; auto; try lia. congruence.
Qed.

Lemma _pre_execution_checks_never_back (x : ndarray) :
  ensures never_back (_pre_execution_checks cls x).
Proof.
  unfold _pre_execution_checks.
  apply ensures_bind; [apply never_back_trans | |].
  { intros s. unfold_monad.
    pose proof (train_all_but_last_never_back (loop_fuel cls) x s) as Hloop.
    destruct ((get_current_train_phase s =? 0)%Z
              && negb (_train_phase_started s)); [|apply never_back_refl].
    destruct (train_all_but_last cls (loop_fuel cls) x s); auto. }
  intros _.
  apply ensures_bind;
    [apply never_back_trans | apply _if_training_stop_training_never_back |].
  intros _.
  apply ensures_bind;
    [apply never_back_trans | apply _check_input_never_back |].
  intros _ s. unfold_monad.
  pose proof (set_output_dim_never_back (_input_dim s) s) as Hset.
  destruct (_output_dim s); [apply never_back_refl|].
  destruct (set_output_dim (_input_dim s) s); auto.
Qed.

Lemma call_never_back {A} (h : Node U -> hook_result U A) :
  ensures never_back (call h).
Proof.
  intros s. unfold call.
  destruct (h s); repeat split; simpl; auto; lia.
Qed.

Lemma execute_never_back (x : ndarray) : ensures never_back (execute cls x).
Proof.
  unfold execute.
  apply ensures_bind;
    [apply never_back_trans | apply _pre_execution_checks_never_back |].
  intros _ s. unfold_monad.
  apply (call_never_back (_execute cls (refcast x (_dtype s))) s).
Qed.

Lemma _pre_inversion_checks_never_back (y : ndarray) :
  ensures never_back (_pre_inversion_checks cls y).
Proof.
  unfold _pre_inversion_checks.
  apply ensures_bind; [apply never_back_trans | |].
  { intros s. unfold_monad.
    destruct (negb (is_invertible cls)); apply never_back_refl. }
  intros _.
  apply ensures_bind;
    [apply never_back_trans | apply _if_training_stop_training_never_back |].
  intros _.
  apply ensures_bind; [apply never_back_trans | |].
  { intros s. unfold_monad.
    pose proof (set_output_dim_never_back (_input_dim s) s) as Hset.
    destruct (_output_dim s); [apply never_back_refl|].
    destruct (_input_dim s); [|apply never_back_refl].
    destruct (set_output_dim (Some n) s); auto. }
  intros _ s. unfold _check_output. unfold_monad.
  split_cases; apply never_back_refl.
Qed.

Lemma inverse_never_back (y : ndarray) : ensures never_back (inverse cls y).
Proof.
  unfold inverse.
  apply ensures_bind;
    [apply never_back_trans | apply _pre_inversion_checks_never_back |].
  intros _ s. unfold_monad.
  apply (call_never_back (_inverse cls (refcast y (_dtype s))) s).
Qed.

Lemma perform_never_back (op : operation) (s : Node U) :
  never_back s (perform cls op s).
Proof.
  destruct op as [x| |x|y]; simpl.
  - pose proof (train_never_back x s) as Hop.
    destruct (train cls x s); simpl; auto using never_back_refl.
  - pose proof (stop_training_never_back s) as Hop.
    destruct (stop_training cls s); simpl; auto using never_back_refl.
  - pose proof (execute_never_back x s) as Hop.
    destruct (execute cls x s); simpl; auto using never_back_refl.
  - pose proof (inverse_never_back y s) as Hop.
    destruct (inverse cls y s); simpl; auto using never_back_refl.
Qed.

Lemma perform_all_never_back (ops : list operation) (s : Node U) :
  never_back s (perform_all cls ops s).
Proof.
  revert s. induction ops as [|op ops IH]; intros s; simpl.
  - apply never_back_refl.
  - eapply never_back_trans; [apply perform_never_back | apply IH].
Qed.
End OperationFacts.

(* ================================================================== *)
(** * Termination and the phases *)
(* ================================================================== *)

Section Lifecycle.
Context `{Numx} {U : Type} (cls : NodeClass U).

Lemma total_train (x : ndarray) : total (train cls x).
Proof.
  intros s. unfold train, _check_input, set_input_dim, set_dtype,
    current_phase, is_training.
  unfold_monad. split_cases; discriminate.
Qed.

Lemma total_stop_training : total (stop_training cls).
Proof.
  intros s. unfold stop_training, current_phase, is_training.
  unfold_monad. split_cases; discriminate.
Qed.

Lemma total__check_input (x : ndarray) : total (_check_input cls x).
Proof.
  intros s. unfold _check_input, set_input_dim, set_dtype.
  unfold_monad. split_cases; discriminate.
Qed.

Lemma total__if_training_stop_training :
  total (_if_training_stop_training cls).
Proof.
  intros s. unfold _if_training_stop_training, is_training. unfold_monad.
  pose proof (total_stop_training s).
  split_cases; congruence.
Qed.

Lemma train_keeps_phase (x : ndarray) (s s' : Node U) :
  train cls x s = Returned tt s' -> _train_phase s' = _train_phase s.
Proof.
  intros Hrun. pose proof (train_ensures_frame cls x s) as Hf.
  rewrite Hrun in Hf. apply Hf.
Qed.

(** The loop of [_pre_execution_checks] ends: every turn but the last
    closes a phase. *)
Lemma train_all_but_last_total (x : ndarray) (fuel : nat) (s : Node U) :
  (get_remaining_train_phase cls s <= Z.of_nat fuel)%Z ->
  1 <= fuel ->
  train_all_but_last cls fuel x s <> OutOfFuel.
Proof.
  revert s. induction fuel as [|fuel IH]; intros s Hrem Hfuel; [lia|].
  simpl. unfold_monad.
  pose proof (total_train x s) as Htot.
  destruct (train cls x s) as [[] s1|e s1|] eqn:Htrain;
    [|discriminate|congruence].
  apply train_keeps_phase in Htrain.
  destruct (get_remaining_train_phase cls s1 >? 1)%Z eqn:Hmore;
    [|discriminate].
  pose proof (total_stop_training s1) as Htot1.
  destruct (stop_training cls s1) as [[] s2|e s2|] eqn:Hstop;
    [|discriminate|congruence].
  apply stop_training_returned in Hstop.
  destruct Hstop as (_ & _ & Hp & _).
  unfold get_remaining_train_phase in *.
  apply Z.gtb_lt in Hmore.
  apply IH; lia.
Qed.

Lemma total__pre_execution_checks (x : ndarray) :
  total (_pre_execution_checks cls x).
Proof.
  unfold _pre_execution_checks.
  apply total_bind.
  { intros s. unfold_monad.
    destruct ((get_current_train_phase s =? 0)%Z
              && negb (_train_phase_started s)) eqn:Hstart; [|discriminate].
    apply andb_true_iff in Hstart. destruct Hstart as [Hzero _].
    apply Z.eqb_eq in Hzero. unfold get_current_train_phase in Hzero.
    apply train_all_but_last_total.
    - unfold get_remaining_train_phase, loop_fuel. lia.
    - unfold loop_fuel. lia. }
  intros _. apply total_bind; [apply total__if_training_stop_training|].
  intros _. apply total_bind; [apply total__check_input|].
  intros _ s. unfold set_output_dim. unfold_monad. split_cases; discriminate.
Qed.

(** [execute] always comes to an end. *)
Lemma total_execute (x : ndarray) : total (execute cls x).
Proof.
  unfold execute. apply total_bind; [apply total__pre_execution_checks|].
  intros _ s. unfold_monad. split_cases; discriminate.
Qed.

Lemma total_inverse (y : ndarray) : total (inverse cls y).
Proof.
  unfold inverse, _pre_inversion_checks.
  apply total_bind.
  - apply total_bind.
    { intros s. unfold_monad. split_cases; discriminate. }
    intros _. apply total_bind; [apply total__if_training_stop_training|].
    intros _. apply total_bind.
    { intros s. unfold set_output_dim. unfold_monad.
      split_cases; discriminate. }
    intros _ s. unfold _check_output. unfold_monad.
    split_cases; discriminate.
  - intros _ s. unfold_monad. split_cases; discriminate.
Qed.

(** ** The phase invariant *)

Lemma train_frame_phase_invariant (s s' : Node U) :
  train_frame s s' -> phase_invariant cls s -> phase_invariant cls s'.
Proof.
  intros (_ & _ & _ & Ht & Hp) [Hrange Htrain].
  unfold phase_invariant. rewrite Ht, Hp. auto.
Qed.

Lemma preserves_of_ensures {A} (R : Node U -> Node U -> Prop)
      (P : Node U -> Prop) (m : M (Node U) A) :
  (forall s s', R s s' -> P s -> P s') -> ensures R m -> preserves P m.
Proof.
  intros Himp Hm s Hs. specialize (Hm s). destruct (m s); eauto.
Qed.

Lemma train_preserves_invariant (x : ndarray) :
  preserves (phase_invariant cls) (train cls x).
Proof.
  eapply preserves_of_ensures;
    [apply train_frame_phase_invariant | apply train_ensures_frame].
Qed.

Lemma _check_input_preserves_invariant (x : ndarray) :
  preserves (phase_invariant cls) (_check_input cls x).
Proof.
  eapply preserves_of_ensures; [| apply _check_input_frame].
  intros s s' Hl. apply train_frame_phase_invariant.
  apply only_locks_train_frame, Hl.
Qed.

Lemma stop_training_preserves_invariant :
  preserves (phase_invariant cls) (stop_training cls).
Proof.
  intros s [Hrange Htrain].
  destruct (stop_training cls s) as [[] s'|e s'|] eqn:Hrun; auto.
  - apply stop_training_returned in Hrun.
    destruct Hrun as (Ht & _ & Hp & _ & Ht' & _).
    rewrite Ht in Htrain. symmetry in Htrain. apply Z.ltb_lt in Htrain.
    unfold phase_invariant, get_remaining_train_phase in *.
    split; [lia|]. rewrite Ht', Hp.
    destruct (Z.eqb_spec
                (Z.of_nat (length (_get_train_seq cls)) - (_train_phase s + 1))
                0) as [Hz|Hz]; simpl; symmetry.
    + apply Z.ltb_ge. lia.
    + apply Z.ltb_lt. lia.
  - apply stop_training_raised in Hrun. rewrite Hrun.
    split; simpl; auto.
Qed.

Lemma _if_training_stop_training_preserves_invariant :
  preserves (phase_invariant cls) (_if_training_stop_training cls).
Proof.
  intros s Hs. unfold _if_training_stop_training, is_training. unfold_monad.
  pose proof (stop_training_preserves_invariant s Hs) as Hstop.
  destruct (_training s); [|assumption].
  destruct (stop_training cls s) as [[] s1|e s1|]; auto.
  split_cases; auto.
Qed.

Lemma train_all_but_last_preserves_invariant (fuel : nat) (x : ndarray) :
  preserves (phase_invariant cls) (train_all_but_last cls fuel x).
Proof.
  induction fuel as [|fuel IH]; simpl; [intros s _; exact I|].
  apply preserves_bind; [apply train_preserves_invariant|].
  intros _ s Hs. unfold_monad.
  destruct (get_remaining_train_phase cls s >? 1)%Z; [|assumption].
  pose proof (stop_training_preserves_invariant s Hs) as Hstop.
  destruct (stop_training cls s) as [[] s1|e s1|]; auto.
  apply (IH s1 Hstop).
Qed.

Lemma set_output_dim_preserves_invariant (n : option nat) :
  preserves (phase_invariant cls) (@set_output_dim U n).
Proof.
  intros s Hs. unfold set_output_dim. unfold_monad.
  split_cases; auto.
Qed.

Lemma call_preserves_invariant {A} (h : Node U -> hook_result U A) :
  preserves (phase_invariant cls) (call h).
Proof.
  intros s Hs. unfold call. destruct (h s); exact Hs.
Qed.

Lemma execute_preserves_invariant (x : ndarray) :
  preserves (phase_invariant cls) (execute cls x).
Proof.
  unfold execute, _pre_execution_checks.
  apply preserves_bind.
  - apply preserves_bind.
    { intros s Hs. unfold_monad.
      pose proof (train_all_but_last_preserves_invariant (loop_fuel cls) x s Hs).
      destruct ((get_current_train_phase s =? 0)%Z
                && negb (_train_phase_started s)); auto. }
    intros _. apply preserves_bind;
      [apply _if_training_stop_training_preserves_invariant|].
    intros _. apply preserves_bind;
      [apply _check_input_preserves_invariant|].
    intros _ s Hs. unfold_monad.
    pose proof (set_output_dim_preserves_invariant (_input_dim s) s Hs).
    destruct (_output_dim s); auto.
  - intros _ s Hs. unfold_monad.
    apply (call_preserves_invariant (_execute cls (refcast x (_dtype s))) s Hs).
Qed.

Lemma inverse_preserves_invariant (y : ndarray) :
  preserves (phase_invariant cls) (inverse cls y).
Proof.
  unfold inverse, _pre_inversion_checks.
  apply preserves_bind.
  - apply preserves_bind.
    { intros s Hs. unfold_monad. split_cases; auto. }
    intros _. apply preserves_bind;
      [apply _if_training_stop_training_preserves_invariant|].
    intros _. apply preserves_bind.
    { intros s Hs. unfold_monad.
      pose proof (set_output_dim_preserves_invariant (_input_dim s) s Hs).
      destruct (_output_dim s); auto.
      destruct (_input_dim s); auto. }
    intros _ s Hs. unfold _check_output. unfold_monad. split_cases; auto.
  - intros _ s Hs. unfold_monad.
    apply (call_preserves_invariant (_inverse cls (refcast y (_dtype s))) s Hs).
Qed.

Lemma perform_preserves_invariant (op : operation) (s : Node U) :
  phase_invariant cls s -> phase_invariant cls (perform cls op s).
Proof.
  intros Hs. destruct op as [x| |x|y]; simpl.
  - pose proof (train_preserves_invariant x s Hs).
    destruct (train cls x s); simpl; auto.
  - pose proof (stop_training_preserves_invariant s Hs).
    destruct (stop_training cls s); simpl; auto.
  - pose proof (execute_preserves_invariant x s Hs).
    destruct (execute cls x s); simpl; auto.
  - pose proof (inverse_preserves_invariant y s Hs).
    destruct (inverse cls y s); simpl; auto.
Qed.

Lemma perform_all_preserves_invariant (ops : list operation) (s : Node U) :
  phase_invariant cls s -> phase_invariant cls (perform_all cls ops s).
Proof.
  revert s. induction ops as [|op ops IH]; intros s Hs; simpl; auto.
  apply IH, perform_preserves_invariant, Hs.
Qed.

(** ** Fresh nodes *)

Lemma fresh_trainable (s : Node U) :
  is_trainable cls = true ->
  fresh cls s ->
  _train_phase s = 0%Z /\ _train_phase_started s = false
  /\ _training s = true.
Proof.
  intros Htr (i & o & d & u & Hinit).
  unfold __init__, set_input_dim, set_output_dim, set_dtype in Hinit.
  rewrite Htr in Hinit. unfold_monad.
  split_cases; invert_outcomes; simpl; auto.
Qed.

Lemma fresh_not_trainable (s : Node U) :
  is_trainable cls = false ->
  fresh cls s ->
  _train_phase s = (-1)%Z /\ _train_phase_started s = false
  /\ _training s = false.
Proof.
  intros Htr (i & o & d & u & Hinit).
  unfold __init__, set_input_dim, set_output_dim, set_dtype in Hinit.
  rewrite Htr in Hinit. unfold_monad.
  split_cases; invert_outcomes; simpl; auto.
Qed.

Lemma fresh_phase_invariant (s : Node U) :
  is_trainable cls = true ->
  _get_train_seq cls <> [] ->
  fresh cls s ->
  phase_invariant cls s.
Proof.
  intros Htr Hseq Hfresh.
  destruct (fresh_trainable s Htr Hfresh) as (Hp & _ & Ht).
  unfold phase_invariant. rewrite Hp, Ht.
  destruct (_get_train_seq cls) as [|p l]; [congruence|].
  simpl length. split; [lia|]. symmetry. apply Z.ltb_lt. lia.
Qed.

Lemma reachable_phase_invariant (s : Node U) :
  is_trainable cls = true ->
  _get_train_seq cls <> [] ->
  reachable cls s ->
  phase_invariant cls s.
Proof.
  intros Htr Hseq (s0 & ops & Hfresh & ->).
  apply perform_all_preserves_invariant, fresh_phase_invariant; assumption.
Qed.
End Lifecycle.

(* ================================================================== *)
(** * The implicit bootstrap of [execute] *)
(* ================================================================== *)

Section Bootstrap.
Context `{Numx} {U : Type} (cls : NodeClass U).

Lemma train_returned_lifecycle (x : ndarray) (s s' : Node U) :
  train cls x s = Returned tt s' ->
  _train_phase s' = _train_phase s /\ _training s' = true
  /\ _train_phase_started s' = true.
Proof.
  intros Hrun. pose proof (train_ensures_frame cls x s) as Hf.
  rewrite Hrun in Hf. destruct Hf as (_ & _ & _ & Ht & Hp).
  apply train_returned in Hrun. destruct Hrun as (_ & Ht' & Hs & _).
  repeat split; congruence.
Qed.

(** C3.  On a freshly constructed trainable node with a single training
    phase, [execute x] is [train x], then [stop_training], then
    [execute x]: the same outcome (result or exception) and the same final
    state, for every array [x]; and [execute] comes to an end. *)
Theorem execute_bootstraps_single_phase (s : Node U) (x : ndarray) :
  is_trainable cls = true ->
  length (_get_train_seq cls) = 1 ->
  fresh cls s ->
  execute cls x s = (train cls x ;; stop_training cls ;; execute cls x) s
  /\ execute cls x s <> OutOfFuel.
Proof.
  intros Htr Hlen Hfresh. split; [|apply total_execute].
  destruct (fresh_trainable cls s Htr Hfresh) as (Hp & Hs & Ht).
  unfold execute, _pre_execution_checks, loop_fuel, get_current_train_phase.
  rewrite Hlen. unfold_monad. rewrite Hp, Hs.
  cbn [andb negb Z.eqb train_all_but_last]. unfold_monad.
  destruct (train cls x s) as [[] s1|e s1|] eqn:Htrain; try reflexivity.
  destruct (train_returned_lifecycle x s s1 Htrain) as (Hp1 & Ht1 & Hs1).
  unfold get_remaining_train_phase at 1. rewrite Hlen, Hp1, Hp.
  cbn [Z.of_nat Pos.of_succ_nat Z.sub Z.gtb Z.compare Z.opp Z.add Pos.compare Pos.compare_cont].
  unfold _if_training_stop_training, is_training. unfold_monad.
  rewrite Ht1.
  destruct (stop_training cls s1) as [[] s2|e s2|] eqn:Hstop; try reflexivity.
  apply stop_training_returned in Hstop.
  destruct Hstop as (_ & _ & Hp2 & Hs2 & Ht2 & _).
  unfold get_remaining_train_phase in *. rewrite Hlen, Hp2, Hp1, Hp in *.
  simpl in Ht2. simpl. rewrite Ht2. reflexivity.
Qed.
End Bootstrap.

(* ================================================================== *)
(** * Training phases and [stop_training] *)
(* ================================================================== *)

Section Phases.
Context `{Numx} {U : Type} (cls : NodeClass U).

Lemma train_or_stop_phase (op : operation) (s : Node U) :
  train_or_stop op = true ->
  _train_phase (perform cls op s)
  = (_train_phase s + Z.of_nat (stops_returned cls [op] s))%Z.
Proof.
  destruct op as [x| |x|y]; simpl; try discriminate; intros _.
  - pose proof (train_ensures_frame cls x s) as Hf.
    destruct (train cls x s); simpl; try lia;
      destruct Hf as (_ & _ & _ & _ & Hp); rewrite Hp; lia.
  - destruct (stop_training cls s) as [[] s'|e s'|] eqn:Hrun; simpl; try lia.
    + apply stop_training_returned in Hrun.
      destruct Hrun as (_ & _ & Hp & _). rewrite Hp. lia.
    + apply stop_training_raised in Hrun. rewrite Hrun. simpl. lia.
Qed.

Lemma train_or_stop_phases (ops : list operation) (s : Node U) :
  forallb train_or_stop ops = true ->
  _train_phase (perform_all cls ops s)
  = (_train_phase s + Z.of_nat (stops_returned cls ops s))%Z.
Proof.
  revert s. induction ops as [|op ops IH]; intros s Hops; simpl in *; [lia|].
  apply andb_true_iff in Hops. destruct Hops as [Hop Hops].
  rewrite (IH _ Hops), (train_or_stop_phase op s Hop). simpl. lia.
Qed.

(** C5.  A trainable node that declares [N >= 1] training phases starts
    at phase index 0 and in training; every [stop_training] that returns
    adds exactly 1 to the index; no operation, returning or raising, ever
    lowers it; a reachable node is out of training exactly when the index
    is [N], so that over calls of [train] and [stop_training] it is out of
    training exactly when [N] calls of [stop_training] have returned; and
    once out of training it stays so under every sequence of operations. *)
Theorem phase_index_counts_closed_phases :
  is_trainable cls = true ->
  _get_train_seq cls <> [] ->
  (forall s, fresh cls s -> _train_phase s = 0%Z /\ _training s = true)
  /\ (forall s s',
         stop_training cls s = Returned tt s' ->
         _train_phase s' = (_train_phase s + 1)%Z)
  /\ (forall s op, (_train_phase s <= _train_phase (perform cls op s))%Z)
  /\ (forall s,
         reachable cls s ->
         (_training s = false
          <-> _train_phase s = Z.of_nat (length (_get_train_seq cls))))
  /\ (forall s ops,
         fresh cls s ->
         forallb train_or_stop ops = true ->
         _train_phase (perform_all cls ops s)
         = Z.of_nat (stops_returned cls ops s)
         /\ (_training (perform_all cls ops s) = false
             <-> stops_returned cls ops s = length (_get_train_seq cls)))
  /\ (forall s ops,
         _training s = false -> _training (perform_all cls ops s) = false).
Proof.
  intros Htr Hseq.
  assert (Hdone : forall s, phase_invariant cls s ->
            (_training s = false
             <-> _train_phase s = Z.of_nat (length (_get_train_seq cls)))).
  { intros s [Hrange Ht]. rewrite Ht. rewrite Z.ltb_ge. lia. }
  split; [|split; [|split; [|split; [|split]]]].
  - intros s Hfresh.
    destruct (fresh_trainable cls s Htr Hfresh) as (Hp & _ & Ht). auto.
  - intros s s' Hrun. apply stop_training_returned in Hrun. tauto.
  - intros s op. apply (perform_never_back cls op s).
  - intros s Hreach. apply Hdone, reachable_phase_invariant; assumption.
  - intros s ops Hfresh Hops.
    pose proof (train_or_stop_phases ops s Hops) as Hcount.
    destruct (fresh_trainable cls s Htr Hfresh) as (Hp & _ & _).
    rewrite Hp in Hcount. simpl in Hcount. split; [assumption|].
    rewrite Hdone.
    + rewrite Hcount. lia.
    + apply perform_all_preserves_invariant, fresh_phase_invariant;
        assumption.
  - intros s ops Hdone'. apply (perform_all_never_back cls ops s), Hdone'.
Qed.

(** ** [stop_training] *)

Lemma current_phase_in_range (s : Node U) :
  phase_invariant cls s ->
  _training s = true ->
  exists p, py_index (_get_train_seq cls) (_train_phase s) = Some p.
Proof.
  intros [Hrange Ht] Htrain. rewrite Htrain in Ht. symmetry in Ht.
  apply Z.ltb_lt in Ht. unfold py_index.
  destruct (Z.leb_spec 0 (_train_phase s)); [|lia].
  destruct (Z.ltb_spec (_train_phase s)
                       (Z.of_nat (length (_get_train_seq cls)))); [|lia].
  simpl.
  destruct (nth_error (_get_train_seq cls) (Z.to_nat (_train_phase s)))
    as [p|] eqn:Hnth; [eauto|].
  apply nth_error_None in Hnth. lia.
Qed.

(** C7.  [stop_training] raises the training-not-started error on a node
    that is training but whose current phase was not started, raises the
    training-finished error on a node that is not training (a
    non-trainable node is never training), and otherwise closes the
    phase: when the stop-step of the current phase returns, so does
    [stop_training], with the index advanced; the current phase exists in
    every state in which the lifecycle invariant holds. *)
Theorem stop_training_raises_or_closes (s : Node U) :
  (_training s = true -> _train_phase_started s = false ->
   stop_training cls s = Raised (TrainingException NodeNotTrained) s)
  /\ (_training s = false ->
      stop_training cls s = Raised TrainingFinishedException s)
  /\ (is_trainable cls = false -> fresh cls s ->
      stop_training cls s = Raised TrainingFinishedException s)
  /\ (_training s = true -> _train_phase_started s = true ->
      (forall p u,
          py_index (_get_train_seq cls) (_train_phase s) = Some p ->
          snd p s = HReturn tt u ->
          stop_training cls s = Returned tt (close_phase cls u s))
      /\ (phase_invariant cls s ->
          exists p, py_index (_get_train_seq cls) (_train_phase s) = Some p)).
Proof.
  assert (Hfinished : _training s = false ->
            stop_training cls s = Raised TrainingFinishedException s).
  { intros Ht. unfold stop_training, is_training. unfold_monad.
    rewrite Ht. simpl. rewrite Ht. reflexivity. }
  split; [|split; [|split]].
  - intros Ht Hs. unfold stop_training, is_training. unfold_monad.
    rewrite Ht, Hs. reflexivity.
  - exact Hfinished.
  - intros Htr Hfresh. apply Hfinished.
    apply (fresh_not_trainable cls s Htr Hfresh).
  - intros Ht Hs. split.
    + intros p u Hp Hstep.
      unfold stop_training, is_training, current_phase, close_phase.
      unfold_monad. rewrite Ht, Hs. simpl. rewrite Ht. simpl.
      rewrite Hp, Hstep.
      destruct (get_remaining_train_phase cls _ =? 0)%Z; reflexivity.
    + intros Hinv. apply current_phase_in_range; assumption.
Qed.
End Phases.

(* ================================================================== *)
(** * Validation of the input: dimensions and empty arrays *)
(* ================================================================== *)

Section Validation.
Context `{Numx} {U : Type} (cls : NodeClass U).

Lemma lands_in_bind {A B} (Q : Node U -> Prop) (m : M (Node U) A)
      (k : A -> M (Node U) B) (s : Node U) :
  lands_in Q (m s) -> (forall a, preserves Q (k a)) ->
  lands_in Q (bind m k s).
Proof.
  intros Hm Hk. unfold bind. destruct (m s) as [a s1|e s1|]; simpl in *; auto.
  apply (Hk a s1 Hm).
Qed.

Lemma never_back_keeps_input_dim (c : nat) (s s' : Node U) :
  never_back s s' -> _input_dim s = Some c -> _input_dim s' = Some c.
Proof. intros ((Hi & _) & _) Hc. auto. Qed.

Lemma _if_training_stop_training_idle (s : Node U) :
  _training s = false -> _if_training_stop_training cls s = Returned tt s.
Proof.
  intros Ht. unfold _if_training_stop_training, is_training. unfold_monad.
  rewrite Ht. reflexivity.
Qed.

(** ** Arrays that [_check_input] turns down *)

Lemma _check_input_zero_rows (x : ndarray) (s : Node U) :
  shape_at x 0 = 0 -> exists e s', _check_input cls x s = Raised e s'.
Proof.
  intros Hrows.
  destruct (_check_input cls x s) as [[] s'|e s'|] eqn:Hrun; [| eauto |].
  - apply _check_input_returned in Hrun. tauto.
  - exfalso. apply (total__check_input cls x s Hrun).
Qed.

Lemma _check_input_other_columns (x : ndarray) (s : Node U) (c : nat) :
  _input_dim s = Some c -> shape_at x 1 <> c ->
  exists e s', _check_input cls x s = Raised e s'.
Proof.
  intros Hdim Hcols.
  pose proof (_check_input_frame cls x s) as Hf.
  destruct (_check_input cls x s) as [[] s'|e s'|] eqn:Hrun; [| eauto |].
  - apply _check_input_returned in Hrun.
    destruct Hrun as (_ & Hi & _). destruct Hf as ([Hsame|Hnone] & _);
      congruence.
  - exfalso. apply (total__check_input cls x s Hrun).
Qed.

Lemma train_turns_down (x : ndarray) (s : Node U) :
  (exists e s', _check_input cls x s = Raised e s') ->
  exists e s', train cls x s = Raised e s'.
Proof.
  intros (e & s' & Hcheck). unfold train, is_training. unfold_monad.
  destruct (negb (is_trainable cls)); simpl; [eauto|].
  destruct (negb (_training s)); simpl; [eauto|].
  rewrite Hcheck. eauto.
Qed.

Lemma execute_turns_down (x : ndarray) (s : Node U) :
  (forall s1, never_back s s1 ->
              exists e s', _check_input cls x s1 = Raised e s') ->
  exists e s', execute cls x s = Raised e s'.
Proof.
  intros Hcheck. unfold execute, _pre_execution_checks, loop_fuel.
  unfold_monad.
  destruct ((get_current_train_phase s =? 0)%Z
            && negb (_train_phase_started s)).
  - cbn [train_all_but_last]. unfold_monad.
    destruct (train_turns_down x s (Hcheck s (never_back_refl s)))
      as (e & s' & Htrain).
    rewrite Htrain. eauto.
  - pose proof (_if_training_stop_training_never_back cls s) as Hnb.
    pose proof (total__if_training_stop_training cls s) as Htot.
    destruct (_if_training_stop_training cls s) as [[] s1|e s1|];
      [| eauto | congruence].
    destruct (Hcheck s1 Hnb) as (e & s' & Hc). rewrite Hc. eauto.
Qed.

Lemma _check_input_no_observation (x : ndarray) (s : Node U) :
  ndim x = 2 -> shape_at x 0 = 0 ->
  _input_dim s = None \/ _input_dim s = Some (shape_at x 1) ->
  _dtype s <> None
  \/ existsb (dtype_eqb (arr_dtype x)) (get_supported_dtypes cls) = true ->
  exists s',
    _check_input cls x s = Raised (NodeException XNoObservation) s'.
Proof.
  intros Hrank Hrows Hdim Hdt.
  unfold _check_input, set_input_dim, set_dtype, dtype_is_set_to_other.
  unfold_monad. rewrite Hrank, Hrows.
  split_cases; decide_tests; eauto; exfalso.
  all: try discriminate.
  all: try (destruct Hdim; congruence).
  all: try (destruct Hdt; congruence).
Qed.

Lemma _check_input_dimension (x : ndarray) (s : Node U) (c : nat) :
  ndim x = 2 -> _input_dim s = Some c -> shape_at x 1 <> c ->
  _dtype s <> None ->
  _check_input cls x s
  = Raised (NodeException (XDimension (shape_at x 1) c)) s.
Proof.
  intros Hrank Hdim Hcols Hdt.
  unfold _check_input. unfold_monad. rewrite Hrank. simpl.
  rewrite Hdim. destruct (_dtype s); [|congruence]. rewrite Hdim.
  apply Nat.eqb_neq in Hcols. rewrite Hcols. reflexivity.
Qed.

Lemma _check_input_accepts (x : ndarray) (s : Node U) (c : nat) :
  ndim x = 2 -> _input_dim s = Some c -> shape_at x 1 = c ->
  shape_at x 0 <> 0 -> _dtype s <> None ->
  _check_input cls x s = Returned tt s.
Proof.
  intros Hrank Hdim Hcols Hrows Hdt.
  unfold _check_input. unfold_monad. rewrite Hrank. simpl.
  rewrite Hdim. destruct (_dtype s); [|congruence]. rewrite Hdim.
  rewrite Hcols, Nat.eqb_refl. apply Nat.eqb_neq in Hrows. rewrite Hrows.
  reflexivity.
Qed.

(** [train] on a node in training, and [execute] on a node out of
    training that skips the bootstrap, raise what [_check_input] raises. *)
Lemma train_raises_check_error (x : ndarray) (s s' : Node U) (e : exn) :
  is_trainable cls = true -> _training s = true ->
  _check_input cls x s = Raised e s' ->
  train cls x s = Raised e s'.
Proof.
  intros Htr Ht Hcheck. unfold train, is_training. unfold_monad.
  rewrite Htr. simpl. rewrite Ht. simpl. rewrite Hcheck. reflexivity.
Qed.

Lemma execute_raises_check_error (x : ndarray) (s s' : Node U) (e : exn) :
  _training s = false ->
  _train_phase s <> 0%Z \/ _train_phase_started s = true ->
  _check_input cls x s = Raised e s' ->
  execute cls x s = Raised e s'.
Proof.
  intros Ht Hskip Hcheck.
  unfold execute, _pre_execution_checks, get_current_train_phase.
  unfold_monad.
  assert (Hguard : ((_train_phase s =? 0)%Z
                    && negb (_train_phase_started s)) = false).
  { destruct Hskip as [Hp|Hs].
    - apply Z.eqb_neq in Hp. rewrite Hp. reflexivity.
    - rewrite Hs. apply andb_false_r. }
  rewrite Hguard. rewrite (_if_training_stop_training_idle s Ht).
  rewrite Hcheck. reflexivity.
Qed.

Lemma execute_bootstrap_raises_train_error (x : ndarray) (s s' : Node U)
      (e : exn) :
  _train_phase s = 0%Z -> _train_phase_started s = false ->
  train cls x s = Raised e s' ->
  execute cls x s = Raised e s'.
Proof.
  intros Hp Hs Htrain.
  unfold execute, _pre_execution_checks, get_current_train_phase, loop_fuel.
  unfold_monad. rewrite Hp, Hs. cbn [Z.eqb negb andb train_all_but_last].
  unfold_monad. rewrite Htrain. reflexivity.
Qed.

(** ** Locking [input_dim] *)

Lemma bind_returned {A B} (m : M (Node U) A) (k : A -> M (Node U) B)
      (s s1 : Node U) (a : A) :
  m s = Returned a s1 -> bind m k s = k a s1.
Proof. intros Hm. unfold bind. rewrite Hm. reflexivity. Qed.

Lemma never_back_preserves_input_dim {A} (c : nat) (m : M (Node U) A) :
  ensures never_back m -> preserves (fun s => _input_dim s = Some c) m.
Proof.
  apply preserves_of_ensures. intros s s' Hnb.
  apply never_back_keeps_input_dim, Hnb.
Qed.

Lemma loop_tail_never_back (fuel : nat) (x : ndarray) :
  ensures never_back
    (s <- get ;;
     if (get_remaining_train_phase cls s >? 1)%Z
     then stop_training cls ;; train_all_but_last cls fuel x
     else pass).
Proof.
  intros s. unfold_monad.
  destruct (get_remaining_train_phase cls s >? 1)%Z; [|apply never_back_refl].
  pose proof (stop_training_never_back cls s) as Hstop.
  destruct (stop_training cls s) as [[] s1|e s1|]; auto.
  pose proof (train_all_but_last_never_back cls fuel x s1) as Hloop.
  destruct (train_all_but_last cls fuel x s1); auto;
    eapply never_back_trans; eauto.
Qed.

Lemma output_default_never_back :
  ensures never_back
    (s <- get ;;
     match _output_dim s with
     | None => @set_output_dim U (_input_dim s)
     | Some _ => pass
     end).
Proof.
  intros s. unfold_monad.
  pose proof (set_output_dim_never_back (_input_dim s) s) as Hset.
  destruct (_output_dim s); [apply never_back_refl|].
  destruct (set_output_dim (_input_dim s) s); auto.
Qed.

Lemma checks_tail_never_back (x : ndarray) :
  ensures never_back
    (_if_training_stop_training cls ;;
     _check_input cls x ;;
     s <- get ;;
     match _output_dim s with
     | None => set_output_dim (_input_dim s)
     | Some _ => pass
     end).
Proof.
  apply ensures_bind;
    [apply never_back_trans | apply _if_training_stop_training_never_back |].
  intros _.
  apply ensures_bind;
    [apply never_back_trans | apply _check_input_never_back |].
  intros _. apply output_default_never_back.
Qed.

Lemma execute_step_never_back (x : ndarray) :
  ensures never_back
    (s <- get ;; call (_execute cls (refcast x (_dtype s)))).
Proof.
  intros s. unfold_monad.
  apply (call_never_back (_execute cls (refcast x (_dtype s))) s).
Qed.

Lemma _check_input_sets_input_dim (x : ndarray) (s : Node U) :
  ndim x = 2 -> _input_dim s = None ->
  lands_in (fun s' => _input_dim s' = Some (shape_at x 1))
           (_check_input cls x s).
Proof.
  intros Hrank Hnone.
  unfold _check_input, set_input_dim, set_dtype. unfold_monad.
  rewrite Hrank. split_cases; simpl; congruence.
Qed.

Lemma train_sets_input_dim (x : ndarray) (s : Node U) :
  is_trainable cls = true -> _training s = true ->
  ndim x = 2 -> _input_dim s = None ->
  lands_in (fun s' => _input_dim s' = Some (shape_at x 1)) (train cls x s).
Proof.
  intros Htr Ht Hrank Hnone.
  pose proof (_check_input_sets_input_dim x s Hrank Hnone) as Hc.
  unfold train, is_training, current_phase. unfold_monad.
  rewrite Htr. simpl. rewrite Ht. simpl.
  destruct (_check_input cls x s) as [[] s1|e s1|]; simpl in *; auto.
  split_cases; simpl; auto.
Qed.

Lemma execute_sets_input_dim (x : ndarray) (s : Node U) :
  fresh cls s -> ndim x = 2 -> _input_dim s = None ->
  lands_in (fun s' => _input_dim s' = Some (shape_at x 1))
           (execute cls x s).
Proof.
  intros Hfresh Hrank Hnone. unfold execute.
  apply lands_in_bind;
    [| intros _; apply never_back_preserves_input_dim,
                 execute_step_never_back].
  unfold _pre_execution_checks.
  destruct (is_trainable cls) eqn:Htr.
  - destruct (fresh_trainable cls s Htr Hfresh) as (Hp & Hs & Ht).
    apply lands_in_bind;
      [| intros _; apply never_back_preserves_input_dim,
                   checks_tail_never_back].
    unfold bind at 1. unfold get at 1, get_current_train_phase, loop_fuel.
    rewrite Hp, Hs. cbn [Z.eqb negb andb train_all_but_last].
    apply lands_in_bind;
      [| intros _; apply never_back_preserves_input_dim,
                   loop_tail_never_back].
    apply train_sets_input_dim; assumption.
  - destruct (fresh_not_trainable cls s Htr Hfresh) as (Hp & Hs & Ht).
    erewrite bind_returned with (s1 := s) (a := tt).
    2:{ unfold_monad. unfold get_current_train_phase. rewrite Hp.
        reflexivity. }
    erewrite bind_returned;
      [| apply (_if_training_stop_training_idle s Ht)].
    apply lands_in_bind;
      [| intros _; apply never_back_preserves_input_dim,
                   output_default_never_back].
    apply _check_input_sets_input_dim; assumption.
Qed.

(** C4, as the code has it.  On a node whose [input_dim] is unset, a
    [train] that reaches the validation of its input, and an [execute] on
    a freshly constructed node, leave [input_dim] set to the column count
    of a two-dimensional array, returning or raising.  Once [input_dim]
    is [c], an array with another column count is never accepted: [train]
    and [execute] raise and [input_dim] stays [c]; the error is the
    dimension error when the call reaches the check of the dimension
    ([train] on a node in training, [execute] on a node out of training,
    dtype set).  An array with [c] columns and at least one row passes the
    validation and changes nothing. *)
Theorem input_dim_is_locked_by_first_array (s : Node U) (x : ndarray) :
  ndim x = 2 ->
  (_input_dim s = None ->
   (is_trainable cls = true -> _training s = true ->
    _input_dim (perform cls (Train x) s) = Some (shape_at x 1))
   /\ (fresh cls s ->
       _input_dim (perform cls (Execute x) s) = Some (shape_at x 1)))
  /\ (forall c,
         _input_dim s = Some c -> shape_at x 1 <> c ->
         (exists e s', train cls x s = Raised e s' /\ _input_dim s' = Some c)
         /\ (exists e s',
                execute cls x s = Raised e s' /\ _input_dim s' = Some c)
         /\ (_dtype s <> None ->
             (is_trainable cls = true -> _training s = true ->
              train cls x s
              = Raised (NodeException (XDimension (shape_at x 1) c)) s)
             /\ (_training s = false ->
                 _train_phase s <> 0%Z \/ _train_phase_started s = true ->
                 execute cls x s
                 = Raised (NodeException (XDimension (shape_at x 1) c)) s)))
  /\ (forall c,
         _input_dim s = Some c -> shape_at x 1 = c ->
         shape_at x 0 <> 0 -> _dtype s <> None ->
         _check_input cls x s = Returned tt s).
Proof.
  intros Hrank. split; [|split].
  - intros Hnone. split.
    + intros Htr Ht.
      pose proof (train_sets_input_dim x s Htr Ht Hrank Hnone) as Hset.
      pose proof (total_train cls x s) as Htot. simpl.
      destruct (train cls x s); simpl in *; congruence.
    + intros Hfresh.
      pose proof (execute_sets_input_dim x s Hfresh Hrank Hnone) as Hset.
      pose proof (total_execute cls x s) as Htot. simpl.
      destruct (execute cls x s); simpl in *; congruence.
  - intros c Hdim Hcols. split; [|split].
    + destruct (train_turns_down x s
                  (_check_input_other_columns x s c Hdim Hcols))
        as (e & s' & Hrun).
      exists e, s'. split; [exact Hrun|].
      pose proof (train_never_back cls x s) as Hnb. rewrite Hrun in Hnb.
      apply (never_back_keeps_input_dim c s s' Hnb Hdim).
    + assert (Hall : forall s1, never_back s s1 ->
                exists e s', _check_input cls x s1 = Raised e s').
      { intros s1 Hnb. apply (_check_input_other_columns x s1 c); auto.
        apply (never_back_keeps_input_dim c s s1 Hnb Hdim). }
      destruct (execute_turns_down x s Hall) as (e & s' & Hrun).
      exists e, s'. split; [exact Hrun|].
      pose proof (execute_never_back cls x s) as Hnb. rewrite Hrun in Hnb.
      apply (never_back_keeps_input_dim c s s' Hnb Hdim).
    + intros Hdt.
      pose proof (_check_input_dimension x s c Hrank Hdim Hcols Hdt) as Hc.
      split.
      * intros Htr Ht. apply train_raises_check_error; assumption.
      * intros Ht Hskip. apply execute_raises_check_error; assumption.
  - intros c Hdim Hcols Hrows Hdt.
    apply (_check_input_accepts x s c); assumption.
Qed.

(** C9, as the code has it.  A two-dimensional array with no row is
    never accepted: [train] and [execute] raise in every state of every
    node.  The error is the zero-observation error when the call gets as
    far as that check, the last one of the validation: the column count
    agrees with [input_dim] or [input_dim] is unset, the dtype is set or
    supported, and [train] is called on a node in training, [execute] on a
    node that is out of training or bootstraps. *)
Theorem zero_rows_are_never_accepted (s : Node U) (x : ndarray) :
  ndim x = 2 ->
  shape_at x 0 = 0 ->
  (exists e s', train cls x s = Raised e s')
  /\ (exists e s', execute cls x s = Raised e s')
  /\ (_input_dim s = None \/ _input_dim s = Some (shape_at x 1) ->
      _dtype s <> None
      \/ existsb (dtype_eqb (arr_dtype x)) (get_supported_dtypes cls) = true ->
      (exists s',
          _check_input cls x s = Raised (NodeException XNoObservation) s')
      /\ (is_trainable cls = true -> _training s = true ->
          exists s', train cls x s = Raised (NodeException XNoObservation) s')
      /\ (_training s = false ->
          _train_phase s <> 0%Z \/ _train_phase_started s = true ->
          exists s',
            execute cls x s = Raised (NodeException XNoObservation) s')
      /\ (is_trainable cls = true -> _training s = true ->
          _train_phase s = 0%Z -> _train_phase_started s = false ->
          exists s',
            execute cls x s = Raised (NodeException XNoObservation) s')).
Proof.
  intros Hrank Hrows. split; [|split].
  - apply train_turns_down, _check_input_zero_rows, Hrows.
  - apply execute_turns_down. intros s1 _.
    apply _check_input_zero_rows, Hrows.
  - intros Hdim Hdt.
    destruct (_check_input_no_observation x s Hrank Hrows Hdim Hdt)
      as (s' & Hc).
    split; [eauto|]. split; [|split].
    + intros Htr Ht. exists s'. apply train_raises_check_error; assumption.
    + intros Ht Hskip. exists s'.
      apply execute_raises_check_error; assumption.
    + intros Htr Ht Hp Hs. exists s'.
      apply execute_bootstrap_raises_train_error; try assumption.
      apply train_raises_check_error; assumption.
Qed.
End Validation.

(* ================================================================== *)
(** * [inverse] *)
(* ================================================================== *)

Section Inversion.
Context `{Numx} {U : Type} (cls : NodeClass U).

Lemma _check_output_accepts (y : ndarray) (s : Node U) :
  ndim y = 2 -> _output_dim s = Some (shape_at y 1) ->
  _check_output y s = Returned tt s.
Proof.
  intros Hrank Hdim. unfold _check_output. unfold_monad.
  rewrite Hrank. simpl. rewrite Hdim, Nat.eqb_refl. reflexivity.
Qed.

(** What [inverse] does once the forced close of the training is over, on
    a node whose [output_dim] is unset. *)
Lemma inverse_after_close (y : ndarray) (s s1 : Node U) :
  is_invertible cls = true ->
  _if_training_stop_training cls s = Returned tt s1 ->
  _output_dim s1 = None ->
  (_input_dim s1 = None ->
   inverse cls y s = Raised (NodeException InputDimUndefined) s1)
  /\ (forall d,
         _input_dim s1 = Some d ->
         inverse cls y s
         = (_check_output y ;;
            s2 <- get ;; call (_inverse cls (refcast y (_dtype s2))))
             (with_output_dim (Some d) s1)).
Proof.
  intros Hinv Hclose Hout.
  unfold inverse, _pre_inversion_checks. unfold_monad.
  rewrite Hinv. simpl. rewrite Hclose, Hout. split.
  - intros Hin. rewrite Hin. reflexivity.
  - intros d Hin. rewrite Hin. unfold set_output_dim. unfold_monad.
    rewrite Hout. reflexivity.
Qed.

(** C8, as the code has it.  [inverse] raises the not-invertible error
    on a node that is not invertible.  On an invertible node the forced
    close of the training comes first; once it has returned (it does
    nothing on a node that is not training), a node whose [output_dim] is
    unset raises the dimension error when [input_dim] is unset too, and
    otherwise gets [output_dim] set to [input_dim] before the columns of
    [y] are checked against it. *)
Theorem inverse_checks_after_forced_close (y : ndarray) (s : Node U) :
  (is_invertible cls = false ->
   inverse cls y s = Raised IsNotInvertibleException s)
  /\ (is_invertible cls = true ->
      forall s1,
        _if_training_stop_training cls s = Returned tt s1 ->
        _output_dim s1 = None ->
        (_input_dim s1 = None ->
         inverse cls y s = Raised (NodeException InputDimUndefined) s1)
        /\ (forall d,
               _input_dim s1 = Some d ->
               inverse cls y s
               = (_check_output y ;;
                  s2 <- get ;; call (_inverse cls (refcast y (_dtype s2))))
                   (with_output_dim (Some d) s1)))
  /\ (_training s = false ->
      _if_training_stop_training cls s = Returned tt s).
Proof.
  split; [|split].
  - intros Hinv. unfold inverse, _pre_inversion_checks. unfold_monad.
    rewrite Hinv. reflexivity.
  - intros Hinv s1 Hclose Hout. apply inverse_after_close; assumption.
  - apply _if_training_stop_training_idle.
Qed.

(** C10.  On an invertible node that is not training, an array with no
    row whose column count is [output_dim] (or [input_dim] where
    [output_dim] is unset) passes the pre-inversion checks, which leave
    [output_dim] set, and [inverse] hands it, cast, to the inverse-step;
    the validation of [train] and [execute] turns the same array down. *)
Theorem inverse_accepts_zero_rows (y : ndarray) (s : Node U) (d : nat) :
  is_invertible cls = true ->
  _training s = false ->
  ndim y = 2 ->
  shape_at y 0 = 0 ->
  shape_at y 1 = d ->
  _output_dim s = Some d \/ (_output_dim s = None /\ _input_dim s = Some d) ->
  _pre_inversion_checks cls y s = Returned tt (with_output_dim (Some d) s)
  /\ inverse cls y s
     = call (_inverse cls (refcast y (_dtype s))) (with_output_dim (Some d) s)
  /\ (exists e s', _check_input cls y s = Raised e s').
Proof.
  intros Hinv Ht Hrank Hrows Hcols Hdim.
  assert (Hpre : _pre_inversion_checks cls y s
                 = Returned tt (with_output_dim (Some d) s)).
  { unfold _pre_inversion_checks. unfold_monad.
    rewrite Hinv. simpl.
    rewrite (_if_training_stop_training_idle cls s Ht).
    destruct Hdim as [Hout|[Hout Hin]].
    - rewrite Hout. rewrite (with_output_dim_same s d Hout).
      apply _check_output_accepts; congruence.
    - rewrite Hout, Hin. unfold set_output_dim. unfold_monad.
      rewrite Hout. apply _check_output_accepts; simpl; congruence. }
  split; [exact Hpre|]. split.
  - unfold inverse. unfold_monad. rewrite Hpre. reflexivity.
  - apply _check_input_zero_rows, Hrows.
Qed.
End Inversion.

(* ================================================================== *)
(** * The [Cumulator] *)
(* ================================================================== *)

Section CumulatorFacts.
Context `{Numx}.

Lemma chunks_app (c r1 r2 : nat) (l1 l2 : list scalar) :
  length l1 = r1 * c ->
  chunks (r1 + r2) c (l1 ++ l2) = chunks r1 c l1 ++ chunks r2 c l2.
Proof.
  revert l1. induction r1 as [|r1 IH]; intros l1 Hlen; simpl in *.
  - destruct l1; [reflexivity | discriminate].
  - assert (Hc : c <= length l1) by lia.
    rewrite firstn_app, skipn_app.
    replace (c - length l1) with 0 by lia.
    simpl. rewrite app_nil_r. f_equal.
    apply IH. rewrite length_skipn. lia.
Qed.

Lemma refcast_shape (x : ndarray) (t : option dtype) :
  shape (refcast x t) = shape x.
Proof.
  unfold refcast. destruct (dtype_eqb _ _); reflexivity.
Qed.

Lemma refcast_length (x : ndarray) (t : option dtype) :
  length (items (refcast x t)) = length (items x).
Proof.
  unfold refcast. destruct (dtype_eqb _ _); simpl;
    [reflexivity | apply length_map].
Qed.

(** The elements of an array cast to [t] are values of [t]. *)
Lemma refcast_values (x : ndarray) (t : dtype) :
  (forall t v, astype t (astype t v) = astype t v) ->
  well_typed x ->
  map (astype t) (items (refcast x (Some t))) = items (refcast x (Some t)).
Proof.
  intros Hidem Hx. unfold refcast.
  destruct (dtype_eqb (arr_dtype x) t) eqn:Heq; simpl.
  - apply String.eqb_eq in Heq. subst t.
    unfold well_typed in Hx. induction Hx as [|v l Hv _ IH]; simpl;
      [reflexivity | rewrite Hv, IH; reflexivity].
  - rewrite map_map. apply map_ext. intros v. apply Hidem.
Qed.

Lemma Cumulator_train_returns (s : Node CumulatorAttrs) (x : ndarray)
      (c r : nat) (t : dtype) (l : list scalar) (n : nat) :
  _training s = true -> _train_phase s = 0%Z ->
  shape x = [S r; c] ->
  _input_dim s = None \/ _input_dim s = Some c ->
  _dtype s = Some t
  \/ (_dtype s = None /\ arr_dtype x = t
      /\ existsb (dtype_eqb t) all_dtypes = true) ->
  attrs s = mkCumulator (DataList l) n ->
  train Cumulator_class x s
  = Returned tt (gathering (_output_dim s) c t
                           (l ++ items (refcast x (Some t))) (n + S r)).
Proof.
  intros Ht Hp Hshape Hdim Hdt Hattrs.
  destruct s as [i o d tr ph st u]. simpl in *. subst tr ph u.
  unfold train, _check_input, set_input_dim, set_dtype,
    dtype_is_set_to_other, current_phase, is_training, ndim, shape_at,
    get_supported_dtypes, gathering.
  unfold_monad. rewrite Hshape. simpl.
  destruct Hdim as [-> | ->]; destruct Hdt as [-> | (-> & Hx & Hsup)];
    simpl; rewrite ?Hx, ?Hsup, ?Nat.eqb_refl; simpl;
    rewrite ?Nat.eqb_refl; simpl; unfold Cumulator__train, shape_at;
    simpl; rewrite ?refcast_shape, ?Hshape; simpl; rewrite ?Hx;
    reflexivity.
Qed.

Lemma batch_length (c : nat) (x : ndarray) (t : option dtype) :
  batch_of c x -> length (items (refcast x t)) = shape_at x 0 * c.
Proof.
  intros (r & Hshape & Hwf & _). rewrite refcast_length.
  unfold well_formed in Hwf. unfold shape_at. rewrite Hwf, Hshape.
  simpl. lia.
Qed.

Lemma train_batches_gathering (o : option nat) (c : nat) (t : dtype)
      (xs : list ndarray) (l : list scalar) (n : nat) :
  Forall (batch_of c) xs ->
  train_batches Cumulator_class xs (gathering o c t l n)
  = Returned tt
      (gathering o c t
                 (l ++ concat (map (fun x => items (refcast x (Some t))) xs))
                 (n + total_rows xs)).
Proof.
  intros Hxs. revert l n.
  induction Hxs as [|x xs Hx _ IH]; intros l n; simpl.
  - rewrite app_nil_r, Nat.add_0_r. reflexivity.
  - destruct Hx as (r & Hshape & Hwf & Hty). unfold_monad.
    rewrite (Cumulator_train_returns (gathering o c t l n) x c r t l n);
      try reflexivity; auto.
    simpl. rewrite IH. unfold shape_at. rewrite Hshape. simpl.
    rewrite <- app_assoc. f_equal. f_equal. lia.
Qed.

Lemma Cumulator_stop_training_returns (o : option nat) (c : nat) (t : dtype)
      (l : list scalar) (n : nat) :
  length l = n * c ->
  stop_training Cumulator_class (gathering o c t l n)
  = Returned tt
      (mkNode (Some c) o (Some t) false 1 false
              (mkCumulator
                 (DataArray (mk_ndarray t [n; c] (map (astype t) l))) n)).
Proof.
  intros Hlen.
  unfold stop_training, current_phase, is_training, gathering,
    get_remaining_train_phase.
  unfold_monad. simpl. unfold Cumulator__stop_training. simpl.
  rewrite length_map, Hlen, Nat.mul_1_r, Nat.eqb_refl. reflexivity.
Qed.

Lemma Cumulator___init___returned (i o : option nat) (d : option dtype)
      (s : Node CumulatorAttrs) :
  Cumulator___init__ i o d Cumulator_blank = Returned tt s ->
  s = mkNode i o d true 0 false (mkCumulator (DataList []) 0).
Proof.
  unfold Cumulator___init__, __init__, set_input_dim, set_output_dim,
    set_dtype, Cumulator_blank, blank.
  unfold_monad. intros Hinit.
  split_cases; invert_outcomes; reflexivity.
Qed.

Lemma Cumulator___init___fresh (i o : option nat) (d : option dtype)
      (s : Node CumulatorAttrs) :
  Cumulator___init__ i o d Cumulator_blank = Returned tt s ->
  fresh Cumulator_class s.
Proof.
  intros Hinit. exists i, o, d, (mkCumulator (DataList []) 0).
  rewrite <- Hinit.
  unfold Cumulator___init__, __init__, set_input_dim, set_output_dim,
    set_dtype, Cumulator_blank, blank.
  unfold_monad. split_cases; reflexivity.
Qed.

Lemma gathered_length (c : nat) (t : dtype) (xs : list ndarray) :
  Forall (batch_of c) xs ->
  length (concat (map (fun x => items (refcast x (Some t))) xs))
  = total_rows xs * c.
Proof.
  induction 1 as [|x xs Hx _ IH]; simpl; [reflexivity|].
  rewrite length_app, IH, (batch_length c x (Some t) Hx). lia.
Qed.

Lemma gathered_values (c : nat) (t : dtype) (xs : list ndarray) :
  (forall t v, astype t (astype t v) = astype t v) ->
  Forall (batch_of c) xs ->
  map (astype t) (concat (map (fun x => items (refcast x (Some t))) xs))
  = concat (map (fun x => items (refcast x (Some t))) xs).
Proof.
  intros Hidem. induction 1 as [|x xs Hx _ IH]; simpl; [reflexivity|].
  rewrite map_app, IH. f_equal.
  destruct Hx as (r & _ & _ & Hty). apply refcast_values; assumption.
Qed.

Lemma gathered_rows (c : nat) (t : dtype) (xs : list ndarray) :
  Forall (batch_of c) xs ->
  chunks (total_rows xs) c
         (concat (map (fun x => items (refcast x (Some t))) xs))
  = concat (map (fun x => rows_of (refcast x (Some t))) xs).
Proof.
  induction 1 as [|x xs Hx _ IH]; simpl; [reflexivity|].
  rewrite chunks_app by (apply batch_length; assumption).
  rewrite IH. f_equal.
  destruct Hx as (r & Hshape & _). unfold rows_of, shape_at.
  rewrite refcast_shape, Hshape. reflexivity.
Qed.

Lemma gathered_same_dtype (t : dtype) (xs : list ndarray) :
  Forall (fun x => arr_dtype x = t) xs ->
  concat (map (fun x => items (refcast x (Some t))) xs)
  = concat (map items xs).
Proof.
  induction 1 as [|x xs Hx _ IH]; simpl; [reflexivity|].
  rewrite IH. f_equal. unfold refcast. rewrite Hx.
  unfold dtype_eqb. rewrite String.eqb_refl. reflexivity.
Qed.

(** C6.  A [Cumulator] is constructed and trained with the batches [xs],
    one [train] call each, every batch a well-formed array with [c]
    columns and at least one row; [t] is the dtype the node is given or
    takes from the first batch.  Then [stop_training] returns and leaves
    in [data] an array of dtype [t] and shape [(tlen, input_dim)], with
    [tlen] the number of rows of all batches and [input_dim = c], whose
    elements, row-major, and whose rows are those of the batches (cast
    to [t]) one after the other in the order they were given; batches
    [(3, 2)] and [(5, 2)] give the shape [(8, 2)]. *)
Theorem Cumulator_data_is_the_batches_in_order
        (i o : option nat) (d : option dtype) (s0 : Node CumulatorAttrs)
        (xs : list ndarray) (c : nat) (t : dtype) :
  (forall t v, astype t (astype t v) = astype t v) ->
  Cumulator___init__ i o d Cumulator_blank = Returned tt s0 ->
  Forall (batch_of c) xs ->
  i = None \/ i = Some c ->
  (exists x rest,
      xs = x :: rest
      /\ (d = Some t
          \/ (d = None /\ arr_dtype x = t
              /\ existsb (dtype_eqb t) all_dtypes = true))) ->
  exists s1 a,
    (train_batches Cumulator_class xs ;; stop_training Cumulator_class) s0
    = Returned tt s1
    /\ _input_dim s1 = Some c
    /\ tlen (attrs s1) = total_rows xs
    /\ data (attrs s1) = DataArray a
    /\ arr_dtype a = t
    /\ shape a = [tlen (attrs s1); c]
    /\ items a = concat (map (fun x => items (refcast x (Some t))) xs)
    /\ rows_of a = concat (map (fun x => rows_of (refcast x (Some t))) xs)
    /\ (Forall (fun x => arr_dtype x = t) xs ->
        items a = concat (map items xs))
    /\ (forall x1 x2,
           xs = [x1; x2] -> shape x1 = [3; 2] -> shape x2 = [5; 2] ->
           shape a = [8; 2]).
Proof.
  intros Hidem Hinit Hxs Hi (x & rest & -> & Hd).
  apply Cumulator___init___returned in Hinit. subst s0.
  inversion Hxs as [|x' rest' Hx Hrest]; subst x' rest'.
  pose proof Hx as (r & Hshape & Hwf & Hty).
  set (L := concat (map (fun x => items (refcast x (Some t))) (x :: rest))).
  exists (mkNode (Some c) o (Some t) false 1 false
            (mkCumulator
               (DataArray (mk_ndarray t [total_rows (x :: rest); c] L))
               (total_rows (x :: rest)))),
    (mk_ndarray t [total_rows (x :: rest); c] L).
  split.
  - simpl train_batches. unfold bind at 1 2.
    rewrite (Cumulator_train_returns _ x c r t [] 0); try reflexivity; auto.
    + simpl. rewrite (train_batches_gathering o c t rest _ _ Hrest).
      change (items (refcast x (Some t))
              ++ concat (map (fun x0 => items (refcast x0 (Some t))) rest))
        with L.
      assert (Hrows : S r + total_rows rest = total_rows (x :: rest)).
      { simpl. unfold shape_at. rewrite Hshape. reflexivity. }
      rewrite Hrows.
      rewrite Cumulator_stop_training_returns
        by apply (gathered_length c t (x :: rest) Hxs).
      unfold L. rewrite (gathered_values c t (x :: rest) Hidem Hxs).
      reflexivity.
  - simpl _input_dim. simpl attrs. simpl tlen. simpl data.
    repeat split; auto.
    + unfold rows_of, shape_at. simpl shape. simpl nth.
      apply (gathered_rows c t (x :: rest) Hxs).
    + intros Hsame. apply gathered_same_dtype, Hsame.
    + intros x1 x2 Heq H1 H2. inversion Heq; subst.
      rewrite H1 in Hshape. inversion Hshape; subst.
      simpl. unfold shape_at. rewrite H1, H2. reflexivity.
Qed.
End CumulatorFacts.

(* ================================================================== *)
(** * Errors and the state; the dtype *)
(* ================================================================== *)

Section Errors.
Context `{Numx} {U : Type} (cls : NodeClass U).

Lemma train_unsupported_dtype (x : ndarray) (s : Node U) :
  is_trainable cls = true -> _training s = true ->
  ndim x = 2 -> _dtype s = None ->
  existsb (dtype_eqb (arr_dtype x)) (get_supported_dtypes cls) = false ->
  train cls x s
  = Raised (NodeException (DtypeNotSupported (arr_dtype x)))
           (match _input_dim s with
            | None => with_input_dim (Some (shape_at x 1)) s
            | Some _ => s
            end).
Proof.
  intros Htr Ht Hrank Hd Hsup.
  unfold train, is_training, _check_input, set_input_dim, set_dtype,
    dtype_is_set_to_other.
  unfold_monad. rewrite Htr. simpl. rewrite Ht. simpl. rewrite Hrank. simpl.
  destruct (_input_dim s) eqn:Hi;
    repeat (progress (rewrite ?Hd, ?Hsup, ?Hi; simpl)); reflexivity.
Qed.

Lemma train_guards (x : ndarray) (s : Node U) :
  (is_trainable cls = false ->
   train cls x s = Raised IsNotTrainableException s)
  /\ (is_trainable cls = true -> _training s = false ->
      train cls x s = Raised TrainingFinishedException s)
  /\ (is_trainable cls = true -> _training s = true -> ndim x <> 2 ->
      train cls x s = Raised (NodeException (XRank (ndim x))) s).
Proof.
  unfold train, is_training, _check_input. unfold_monad.
  split; [|split].
  - intros ->. reflexivity.
  - intros -> Ht. simpl. rewrite Ht. reflexivity.
  - intros -> Ht Hrank. simpl. rewrite Ht. simpl.
    apply Nat.eqb_neq in Hrank. rewrite Hrank. reflexivity.
Qed.

(** C1, as the code has it.  An operation that raises does not put the
    state back.  A [train] that raises leaves the phase index,
    [is_training] and [output_dim] as they were and a set [input_dim] or
    dtype as it was; unless the input had passed the validation,
    [phase_started] and the attributes of the subclass are as they were
    too; the capability, lifecycle and rank errors leave the state
    unchanged; but the validation sets an unset [input_dim] before it
    looks at the dtype, so that an array of an unsupported dtype raises
    with the dtype still unset and [input_dim] set to its column count.
    A [stop_training] that raises leaves all but the attributes of the
    subclass unchanged.  An [execute] or [inverse] that raises keeps what
    its implicit training or forced close has done; it changes no set
    [input_dim], [output_dim] or dtype, does not lower the phase index and
    does not reopen the training. *)
Theorem raising_calls_keep_what_was_set (s s' : Node U) (e : exn) :
  (forall x,
      train cls x s = Raised e s' ->
      train_frame s s'
      /\ (only_locks s s' \/ exists s1, _check_input cls x s = Returned tt s1))
  /\ (forall x,
         (is_trainable cls = false ->
          train cls x s = Raised IsNotTrainableException s)
         /\ (is_trainable cls = true -> _training s = false ->
             train cls x s = Raised TrainingFinishedException s)
         /\ (is_trainable cls = true -> _training s = true -> ndim x <> 2 ->
             train cls x s = Raised (NodeException (XRank (ndim x))) s))
  /\ (forall x,
         is_trainable cls = true -> _training s = true ->
         ndim x = 2 -> _dtype s = None ->
         existsb (dtype_eqb (arr_dtype x)) (get_supported_dtypes cls) = false ->
         train cls x s
         = Raised (NodeException (DtypeNotSupported (arr_dtype x)))
                  (match _input_dim s with
                   | None => with_input_dim (Some (shape_at x 1)) s
                   | Some _ => s
                   end))
  /\ (stop_training cls s = Raised e s' -> s' = with_attrs (attrs s') s)
  /\ (forall x, execute cls x s = Raised e s' -> never_back s s')
  /\ (forall y, inverse cls y s = Raised e s' -> never_back s s').
Proof.
  split; [|split; [|split; [|split; [|split]]]].
  - intros x Hrun. split.
    + pose proof (train_ensures_frame cls x s) as Hf.
      rewrite Hrun in Hf. exact Hf.
    + apply (train_raised cls x s s' e Hrun).
  - intros x. apply train_guards.
  - intros x. apply train_unsupported_dtype.
  - apply stop_training_raised.
  - intros x Hrun. pose proof (execute_never_back cls x s) as Hnb.
    rewrite Hrun in Hnb. exact Hnb.
  - intros y Hrun. pose proof (inverse_never_back cls y s) as Hnb.
    rewrite Hrun in Hnb. exact Hnb.
Qed.

(** ** A second dtype *)

Lemma set_dtype_conflict (s : Node U) (a b : dtype) :
  _dtype s = Some a -> dtype_eqb a b = false ->
  set_dtype cls (Some b) s = Raised (NodeException (DtypeAlreadySet a b)) s.
Proof.
  intros Hd Hab. unfold set_dtype, dtype_is_set_to_other. unfold_monad.
  rewrite Hd, Hab. reflexivity.
Qed.

(** C2, as the code has it.  A node in training whose dtype is locked to
    [a] does not refuse an array of another dtype [b] (two-dimensional,
    matching column count, at least one row): the validation passes and
    changes nothing, the dtype of the node stays [a] whatever the call
    ends in, and the train-step is called with the array cast to [a].
    The dtype-conflict error is what [set_dtype] raises when the dtype of
    the node itself is set a second time, to another value; [train] never
    gets there. *)
Theorem second_dtype_is_cast_not_refused
        (s : Node U) (x : ndarray) (a : dtype) :
  is_trainable cls = true ->
  _training s = true ->
  _dtype s = Some a ->
  dtype_eqb (arr_dtype x) a = false ->
  ndim x = 2 ->
  _input_dim s = Some (shape_at x 1) ->
  shape_at x 0 <> 0 ->
  _check_input cls x s = Returned tt s
  /\ train cls x s
     = (call (_check_train_args cls x) ;;
        modify (with_train_phase_started true) ;;
        s1 <- get ;;
        p <- current_phase cls s1 ;;
        call (fst p (nd_astype x a))) s
  /\ lands_in (fun s' => _dtype s' = Some a) (train cls x s)
  /\ set_dtype cls (Some (arr_dtype x)) s
     = Raised (NodeException (DtypeAlreadySet a (arr_dtype x))) s.
Proof.
  intros Htr Ht Hd Hab Hrank Hdim Hrows.
  assert (Hcheck : _check_input cls x s = Returned tt s).
  { apply (_check_input_accepts cls x s (shape_at x 1)); congruence. }
  split; [exact Hcheck|]. split; [|split].
  - unfold train, is_training. unfold_monad.
    rewrite Htr. simpl. rewrite Ht. simpl. rewrite Hcheck.
    destruct (_check_train_args cls x s) as [[] u|e u]; [|reflexivity].
    simpl. unfold refcast. rewrite Hd, Hab. reflexivity.
  - pose proof (train_ensures_frame cls x s) as Hf.
    destruct (train cls x s) as [[] s'|e s'|]; simpl; auto;
      destruct Hf as (_ & [Hsame|Hnone] & _); congruence.
  - apply set_dtype_conflict; [assumption|].
    unfold dtype_eqb in *. rewrite String.eqb_sym. assumption.
Qed.
End Errors.

(* ================================================================== *)
(** * The sample nodes *)
(* ================================================================== *)

Section OnSamples.
Import Samples.
#[local] Existing Instance numx_Z.

Lemma new_cumulator_fresh : fresh Cumulator_class new_cumulator.
Proof.
  apply (Cumulator___init___fresh None None None). reflexivity.
Qed.

Lemma numx_Z_astype_idempotent (t : dtype) (v : Z) :
  astype t (astype t v) = astype t v.
Proof.
  simpl. destruct (dtype_eqb t bool_); [|reflexivity].
  destruct (v =? 0)%Z; reflexivity.
Qed.

Lemma batch_3x2_is_batch : batch_of 2 batch_3x2.
Proof.
  exists 2. split; [reflexivity|]. split; [reflexivity|].
  unfold well_typed. simpl. repeat constructor.
Qed.

Lemma batch_5x2_is_batch : batch_of 2 batch_5x2.
Proof.
  exists 4. split; [reflexivity|]. split; [reflexivity|].
  unfold well_typed. simpl. repeat constructor.
Qed.

(** ** What the code does where a sentence of the specification fails *)

(** Against C1: [train] with an array of a dtype the node does not
    support raises, and the node is not as it was: [input_dim], unset
    before the call, is 2 after it. *)
Lemma unsupported_dtype_leaves_input_dim_set :
  existsb (dtype_eqb (arr_dtype int_batch_3x2))
          (get_supported_dtypes FloatCumulator) = false
  /\ _input_dim new_float_cumulator = None
  /\ _dtype new_float_cumulator = None
  /\ exists s',
      train FloatCumulator int_batch_3x2 new_float_cumulator
      = Raised (NodeException (DtypeNotSupported int32)) s'
      /\ _input_dim s' = Some 2
      /\ s' <> new_float_cumulator.
Proof.
  repeat split.
  eexists. split; [reflexivity|]. split; [reflexivity|]. discriminate.
Qed.

(** Against C2: a [Cumulator] locked to float64 by a first [train] takes
    an int32 array with the same columns in a second [train]: the call
    returns and the dtype of the node is float64 as before. *)
Lemma second_dtype_train_returns :
  exists s1 s2,
    train Cumulator_class batch_3x2 new_cumulator = Returned tt s1
    /\ _dtype s1 = Some float64
    /\ arr_dtype int_batch_3x2 = int32
    /\ shape int_batch_3x2 = [3; 2]
    /\ _input_dim s1 = Some 2
    /\ train Cumulator_class int_batch_3x2 s1 = Returned tt s2
    /\ _dtype s2 = Some float64.
Proof.
  do 2 eexists. repeat split; reflexivity.
Qed.

(** Against C4: once the training of a [Cumulator] locked to 2 columns
    is over, [train] with a 3-column array raises the training-finished
    error, no dimension error, and an array with 2 columns is not
    accepted either. *)
Lemma train_after_training_is_no_dimension_error :
  exists s1,
    (train Cumulator_class batch_3x2 ;; stop_training Cumulator_class)
      new_cumulator = Returned tt s1
    /\ _input_dim s1 = Some 2
    /\ shape batch_3x3 = [3; 3]
    /\ train Cumulator_class batch_3x3 s1
       = Raised TrainingFinishedException s1
    /\ TrainingFinishedException <> NodeException (XDimension 3 2)
    /\ shape batch_5x2 = [5; 2]
    /\ train Cumulator_class batch_5x2 s1
       = Raised TrainingFinishedException s1.
Proof.
  eexists. repeat split; try reflexivity; discriminate.
Qed.

(** Against C8: [Node] is invertible; on a new node, [output_dim] and
    [input_dim] unset, [inverse] raises the training-not-started error of
    the forced close, not the dimension error. *)
Lemma inverse_on_new_node_raises_not_trained :
  is_invertible Node_class = true
  /\ _output_dim new_node = None
  /\ _input_dim new_node = None
  /\ inverse Node_class batch_3x2 new_node
     = Raised (TrainingException NodeNotTrained) new_node
  /\ TrainingException NodeNotTrained <> NodeException InputDimUndefined.
Proof.
  repeat split; try reflexivity; discriminate.
Qed.

(** Against C9: on a node locked to 2 columns, [execute] with an array
    of shape (0, 3) raises the dimension error, not the zero-observation
    error; and [train] on a node that is not trainable raises the
    not-trainable error for an array of shape (0, 2). *)
Lemma zero_rows_other_error_first :
  exists r s1,
    execute FixedNode batch_3x2 new_fixed_node = Returned r s1
    /\ shape empty_0x3 = [0; 3]
    /\ execute FixedNode empty_0x3 s1
       = Raised (NodeException (XDimension 3 2)) s1
    /\ NodeException (XDimension 3 2) <> NodeException XNoObservation
    /\ shape empty_0x2 = [0; 2]
    /\ train FixedNode empty_0x2 new_fixed_node
       = Raised IsNotTrainableException new_fixed_node.
Proof.
  do 2 eexists. repeat split; try reflexivity; discriminate.
Qed.

(** ** The theorems at the samples *)

Lemma raising_calls_keep_what_was_set_witness :
  train_frame new_float_cumulator
              (with_input_dim (Some 2) new_float_cumulator)
  /\ train FloatCumulator int_batch_3x2 new_float_cumulator
     = Raised (NodeException (DtypeNotSupported int32))
              (with_input_dim (Some 2) new_float_cumulator).
Proof.
  pose proof (raising_calls_keep_what_was_set
                FloatCumulator new_float_cumulator
                (with_input_dim (Some 2) new_float_cumulator)
                (NodeException (DtypeNotSupported int32)))
    as (Hframe & _ & Hdtype & _).
  split.
  - apply (Hframe int_batch_3x2). reflexivity.
  - apply (Hdtype int_batch_3x2); reflexivity.
Defined.

Lemma second_dtype_is_cast_not_refused_witness :
  _check_input Cumulator_class int_batch_3x2
               cumulator_trained_once
  = Returned tt cumulator_trained_once.
Proof.
  apply (second_dtype_is_cast_not_refused
           Cumulator_class cumulator_trained_once int_batch_3x2 float64);
    try reflexivity.
  simpl. discriminate.
Defined.

Lemma execute_bootstraps_single_phase_witness :
  execute Cumulator_class batch_3x2 new_cumulator
  = (train Cumulator_class batch_3x2 ;;
     stop_training Cumulator_class ;;
     execute Cumulator_class batch_3x2) new_cumulator.
Proof.
  apply (execute_bootstraps_single_phase
           Cumulator_class new_cumulator batch_3x2);
    [reflexivity | reflexivity | exact new_cumulator_fresh].
Defined.

Lemma input_dim_is_locked_by_first_array_witness :
  _input_dim (perform Cumulator_class (Train batch_3x2) new_cumulator)
  = Some 2
  /\ train Cumulator_class batch_3x3 cumulator_trained_once
     = Raised (NodeException (XDimension 3 2)) cumulator_trained_once
  /\ _check_input Cumulator_class batch_5x2 cumulator_trained_once
     = Returned tt cumulator_trained_once.
Proof.
  pose proof (input_dim_is_locked_by_first_array
                Cumulator_class new_cumulator batch_3x2 eq_refl)
    as (Hset & _ & _).
  pose proof (input_dim_is_locked_by_first_array
                Cumulator_class cumulator_trained_once batch_3x3 eq_refl)
    as (_ & Hother & _).
  pose proof (input_dim_is_locked_by_first_array
                Cumulator_class cumulator_trained_once batch_5x2 eq_refl)
    as (_ & _ & Hsame).
  split; [|split].
  - destruct (Hset eq_refl) as [Htrain _]. apply Htrain; reflexivity.
  - destruct (Hother 2 eq_refl) as (_ & _ & Hdim); [cbv; discriminate|].
    destruct Hdim as [Htrain _]; [simpl; discriminate|].
    apply Htrain; reflexivity.
  - apply (Hsame 2); try reflexivity; cbv; discriminate.
Defined.

Lemma phase_index_counts_closed_phases_witness :
  _train_phase new_cumulator = 0%Z /\ _training new_cumulator = true.
Proof.
  apply (phase_index_counts_closed_phases Cumulator_class);
    [reflexivity | discriminate | exact new_cumulator_fresh].
Defined.

Lemma Cumulator_data_is_the_batches_in_order_witness :
  exists s1 a,
    (train_batches Cumulator_class [batch_3x2; batch_5x2] ;;
     stop_training Cumulator_class) new_cumulator = Returned tt s1
    /\ data (attrs s1) = DataArray a
    /\ shape a = [8; 2].
Proof.
  destruct (Cumulator_data_is_the_batches_in_order
              None None None new_cumulator [batch_3x2; batch_5x2] 2 float64)
    as (s1 & a & Hrun & _ & _ & Hdata & _ & _ & _ & _ & _ & Hshape).
  - exact numx_Z_astype_idempotent.
  - reflexivity.
  - repeat constructor;
      [exact batch_3x2_is_batch | exact batch_5x2_is_batch].
  - left. reflexivity.
  - exists batch_3x2, [batch_5x2]. split; [reflexivity|].
    right. repeat split; reflexivity.
  - exists s1, a. split; [exact Hrun|]. split; [exact Hdata|].
    apply (Hshape batch_3x2 batch_5x2); reflexivity.
Defined.

Lemma stop_training_raises_or_closes_witness :
  stop_training Cumulator_class new_cumulator
  = Raised (TrainingException NodeNotTrained) new_cumulator.
Proof.
  apply (stop_training_raises_or_closes Cumulator_class new_cumulator);
    reflexivity.
Defined.

Lemma inverse_checks_after_forced_close_witness :
  inverse FixedNode batch_3x2 new_fixed_node
  = Raised (NodeException InputDimUndefined) new_fixed_node.
Proof.
  apply (inverse_checks_after_forced_close FixedNode batch_3x2
                                           new_fixed_node);
    reflexivity.
Defined.

Lemma zero_rows_are_never_accepted_witness :
  exists e s', train Cumulator_class empty_0x2 new_cumulator = Raised e s'.
Proof.
  apply (zero_rows_are_never_accepted Cumulator_class new_cumulator
                                      empty_0x2);
    reflexivity.
Defined.

Lemma inverse_accepts_zero_rows_witness :
  _pre_inversion_checks FixedNode empty_0x2
                        (with_input_dim (Some 2) new_fixed_node)
  = Returned tt
      (with_output_dim (Some 2) (with_input_dim (Some 2) new_fixed_node)).
Proof.
  apply (inverse_accepts_zero_rows
           FixedNode empty_0x2 (with_input_dim (Some 2) new_fixed_node) 2);
    try reflexivity.
  right. split; reflexivity.
Defined.
End OnSamples.

(* ================================================================== *)
(** * Invariants of the reachable states; construction *)
(* ================================================================== *)

Section Invariants.
Context `{Numx} {U : Type} (cls : NodeClass U).

Lemma bind_returned_inv {A B} (m : M (Node U) A) (k : A -> M (Node U) B)
      (s s' : Node U) (b : B) :
  bind m k s = Returned b s' ->
  exists a s1, m s = Returned a s1 /\ k a s1 = Returned b s'.
Proof.
  unfold bind. destruct (m s) as [a s1|e s1|]; try discriminate. eauto.
Qed.

(** Whatever the four operations are built from keeps, they keep. *)
Lemma operations_preserve (P : Node U -> Prop) :
  (forall x, preserves P (train cls x)) ->
  preserves P (stop_training cls) ->
  (forall x, preserves P (_check_input cls x)) ->
  (forall n, preserves P (@set_output_dim U n)) ->
  (forall A (h : Node U -> hook_result U A), preserves P (call h)) ->
  forall op s, P s -> P (perform cls op s).
Proof.
  intros Htrain Hstop Hcheck Hout Hcall.
  assert (Hclose : preserves P (_if_training_stop_training cls)).
  { intros s Hs. unfold _if_training_stop_training, is_training.
    unfold_monad. pose proof (Hstop s Hs) as Hs1.
    destruct (_training s); [|assumption].
    destruct (stop_training cls s) as [[] s1|e s1|]; auto.
    split_cases; auto. }
  assert (Hloop : forall fuel x, preserves P (train_all_but_last cls fuel x)).
  { induction fuel as [|fuel IH]; intros x; simpl; [intros s _; exact I|].
    apply preserves_bind; [apply Htrain|].
    intros _ s Hs. unfold_monad.
    destruct (get_remaining_train_phase cls s >? 1)%Z; [|assumption].
    pose proof (Hstop s Hs) as Hs1.
    destruct (stop_training cls s) as [[] s1|e s1|]; auto.
    apply (IH x s1 Hs1). }
  intros op s Hs. destruct op as [x| |x|y]; simpl.
  - pose proof (Htrain x s Hs). destruct (train cls x s); simpl; auto.
  - pose proof (Hstop s Hs). destruct (stop_training cls s); simpl; auto.
  - assert (Hexec : preserves P (execute cls x)).
    { unfold execute, _pre_execution_checks.
      apply preserves_bind.
      - apply preserves_bind.
        { intros s0 Hs0. unfold_monad.
          pose proof (Hloop (loop_fuel cls) x s0 Hs0).
          destruct ((get_current_train_phase s0 =? 0)%Z
                    && negb (_train_phase_started s0)); auto. }
        intros _. apply preserves_bind; [apply Hclose|].
        intros _. apply preserves_bind; [apply Hcheck|].
        intros _ s0 Hs0. unfold_monad.
        pose proof (Hout (_input_dim s0) s0 Hs0).
        destruct (_output_dim s0); auto.
      - intros _ s0 Hs0. unfold_monad.
        apply (Hcall _ (_execute cls (refcast x (_dtype s0))) s0 Hs0). }
    pose proof (Hexec s Hs). destruct (execute cls x s); simpl; auto.
  - assert (Hinv : preserves P (inverse cls y)).
    { unfold inverse, _pre_inversion_checks.
      apply preserves_bind.
      - apply preserves_bind.
        { intros s0 Hs0. unfold_monad. split_cases; auto. }
        intros _. apply preserves_bind; [apply Hclose|].
        intros _. apply preserves_bind.
        { intros s0 Hs0. unfold_monad.
          pose proof (Hout (_input_dim s0) s0 Hs0).
          destruct (_output_dim s0); auto.
          destruct (_input_dim s0); auto. }
        intros _ s0 Hs0. unfold _check_output. unfold_monad.
        split_cases; auto.
      - intros _ s0 Hs0. unfold_monad.
        apply (Hcall _ (_inverse cls (refcast y (_dtype s0))) s0 Hs0). }
    pose proof (Hinv s Hs). destruct (inverse cls y s); simpl; auto.
Qed.

Lemma reachable_ind_invariant (P : Node U -> Prop) :
  (forall s, fresh cls s -> P s) ->
  (forall op s, P s -> P (perform cls op s)) ->
  forall s, reachable cls s -> P s.
Proof.
  intros Hfresh Hstep s (s0 & ops & Hs0 & ->).
  apply Hfresh in Hs0. revert s0 Hs0.
  induction ops as [|op ops IH]; intros s0 Hs0; simpl; auto.
Qed.

(** ** The data a node has seen *)

Lemma _check_input_keeps_dtype_supported (x : ndarray) :
  preserves (dtype_supported cls) (_check_input cls x).
Proof.
  intros s Hd.
  unfold _check_input, set_input_dim, set_dtype, dtype_is_set_to_other.
  unfold dtype_supported in *. unfold_monad.
  split_cases; decide_tests; simpl; auto.
  all: intros t Ht;
    first [ apply Hd; congruence | injection Ht as <-; assumption ].
Qed.

Lemma only_locks_dimensions_known (s s' : Node U) :
  only_locks s s' -> dimensions_known s -> dimensions_known s'.
Proof.
  intros (Hi & Hd & _) [Hki Hkd].
  split; [destruct Hi | destruct Hd]; congruence.
Qed.

Lemma _check_input_keeps_data_invariant (x : ndarray) :
  preserves (data_invariant cls) (_check_input cls x).
Proof.
  intros s (Hd & Hs & Hp).
  pose proof (_check_input_keeps_dtype_supported x s Hd) as Hd'.
  pose proof (_check_input_frame cls x s) as Hf.
  destruct (_check_input cls x s) as [[] s'|e s'|]; auto.
  all: pose proof Hf as (_ & _ & _ & Ht & Hph & Hst & _).
  all: split; [exact Hd'|]; split.
  all: rewrite ?Hst, ?Ht, ?Hph; intros Hyp.
  all: try (destruct (Hs Hyp) as [Htr Hk]; split; [exact Htr|]).
  all: try apply (only_locks_dimensions_known s s' Hf); auto.
Qed.

Lemma call_keeps_data_invariant {A} (h : Node U -> hook_result U A) :
  preserves (data_invariant cls) (call h).
Proof.
  intros s Hs. unfold call. destruct (h s); exact Hs.
Qed.

Lemma set_output_dim_keeps_data_invariant (n : option nat) :
  preserves (data_invariant cls) (@set_output_dim U n).
Proof.
  intros s Hs. unfold set_output_dim. unfold_monad. split_cases; auto.
Qed.

Lemma train_keeps_data_invariant (x : ndarray) :
  preserves (data_invariant cls) (train cls x).
Proof.
  intros s Hs. unfold train, is_training, current_phase. unfold_monad.
  destruct (negb (is_trainable cls)); simpl; [exact Hs|].
  destruct (_training s) eqn:Ht; simpl; [|exact Hs].
  pose proof (_check_input_keeps_data_invariant x s Hs) as Hs1.
  pose proof (_check_input_frame cls x s) as Hf.
  destruct (_check_input cls x s) as [[] s1|e s1|] eqn:Hc; auto.
  apply _check_input_returned in Hc. destruct Hc as (_ & Hi & Hd & _).
  destruct Hf as (_ & _ & _ & Ht1 & _).
  assert (Hk : dimensions_known s1) by (split; congruence).
  assert (Hstarted : forall u : U,
            data_invariant cls
              (with_train_phase_started true (with_attrs u s1))).
  { intros u. destruct Hs1 as (Hsup & _ & _).
    split; [exact Hsup|]. split; simpl; intros _; auto.
    split; [congruence | exact Hk]. }
  destruct (_check_train_args cls x s1) as [[] u|e u]; simpl.
  - specialize (Hstarted u).
    destruct (py_index _ _) as [p|]; simpl; [|exact Hstarted].
    destruct (fst p _ _); exact Hstarted.
  - exact Hs1.
Qed.

Lemma stop_training_keeps_data_invariant :
  preserves (data_invariant cls) (stop_training cls).
Proof.
  intros s (Hd & Hs & Hp).
  destruct (stop_training cls s) as [[] s'|e s'|] eqn:Hrun; auto.
  - apply stop_training_returned in Hrun.
    destruct Hrun as (_ & Hst & _ & Hst' & _ & Hi & _ & Hdt).
    destruct (Hs Hst) as [_ [Hki Hkd]].
    split; [|split].
    + intros t Ht. apply Hd. congruence.
    + rewrite Hst'. discriminate.
    + intros _. split; congruence.
  - apply stop_training_raised in Hrun. rewrite Hrun.
    split; [exact Hd|]. split; simpl; auto.
Qed.

Lemma perform_keeps_data_invariant (op : operation) (s : Node U) :
  data_invariant cls s -> data_invariant cls (perform cls op s).
Proof.
  apply operations_preserve.
  - apply train_keeps_data_invariant.
  - apply stop_training_keeps_data_invariant.
  - apply _check_input_keeps_data_invariant.
  - apply set_output_dim_keeps_data_invariant.
  - intros A h. apply call_keeps_data_invariant.
Qed.

Lemma __init___returned (i o : option nat) (d : option dtype) (u : U)
      (s : Node U) :
  __init__ cls i o d (blank u) = Returned tt s ->
  s = mkNode i o d (is_trainable cls)
             (if is_trainable cls then 0%Z else (-1)%Z) false u
  /\ (forall t, d = Some t ->
                existsb (dtype_eqb t) (get_supported_dtypes cls) = true).
Proof.
  unfold __init__, set_input_dim, set_output_dim, set_dtype,
    dtype_is_set_to_other, blank.
  unfold_monad. intros Hinit.
  split_cases; invert_outcomes; decide_tests; simpl; split;
    try reflexivity; intros t' Ht'; congruence.
Qed.

Lemma fresh_data_invariant (s : Node U) :
  fresh cls s -> data_invariant cls s.
Proof.
  intros (i & o & d & u & Hinit).
  apply __init___returned in Hinit. destruct Hinit as [-> Hsup].
  split; [|split]; simpl.
  - exact Hsup.
  - discriminate.
  - destruct (is_trainable cls); lia.
Qed.

Lemma reachable_data_invariant (s : Node U) :
  reachable cls s -> data_invariant cls s.
Proof.
  revert s. apply reachable_ind_invariant.
  - apply fresh_data_invariant.
  - apply perform_keeps_data_invariant.
Qed.

(** X3.  The dtype a node commits to is one its class supports: in every
    state a caller can bring a node to, whatever the operations and the
    arrays were and whether they returned or raised, the dtype is unset
    or a member of the supported dtypes. *)
Theorem reachable_dtype_is_supported (s : Node U) (t : dtype) :
  reachable cls s ->
  _dtype s = Some t ->
  existsb (dtype_eqb t) (get_supported_dtypes cls) = true.
Proof.
  intros Hreach.
  destruct (reachable_data_invariant s Hreach) as (Hd & _). apply Hd.
Qed.

(** X4.  A phase is started only on a node in training, and a node that
    has started or closed a phase knows its input: in every state a
    caller can bring a node to, [phase_started] implies [is_training],
    and [phase_started] or a phase index above 0 implies that
    [input_dim] and the dtype are set. *)
Theorem reachable_started_phase_knows_its_input (s : Node U) :
  reachable cls s ->
  (_train_phase_started s = true -> _training s = true)
  /\ (_train_phase_started s = true \/ (0 < _train_phase s)%Z ->
      _input_dim s <> None /\ _dtype s <> None).
Proof.
  intros Hreach.
  destruct (reachable_data_invariant s Hreach) as (_ & Hs & Hp). split.
  - intros Hst. apply (Hs Hst).
  - intros [Hst|Hph]; [apply (Hs Hst) | apply (Hp Hph)].
Qed.

(** ** Construction and the setters *)

(** X1.  [Node.__init__] raises exactly when a dtype is given that the
    class does not support.  Otherwise it returns a node that holds the
    given [input_dim], [output_dim] and dtype as they are, no phase
    started, and is at phase 0 and in training when the class is
    trainable, at phase -1 and out of training when it is not. *)
Theorem construction_raises_only_on_unsupported_dtype
        (i o : option nat) (d : option dtype) (u : U) :
  ((forall t, d = Some t ->
              existsb (dtype_eqb t) (get_supported_dtypes cls) = true) ->
   __init__ cls i o d (blank u)
   = Returned tt
       (mkNode i o d (is_trainable cls)
               (if is_trainable cls then 0%Z else (-1)%Z) false u))
  /\ (forall t,
         d = Some t ->
         existsb (dtype_eqb t) (get_supported_dtypes cls) = false ->
         exists s',
           __init__ cls i o d (blank u)
           = Raised (NodeException (DtypeNotSupported t)) s').
Proof.
  unfold __init__, set_input_dim, set_output_dim, set_dtype,
    dtype_is_set_to_other, blank.
  unfold_monad. split.
  - intros Hsup. destruct i, o, d as [t|]; simpl;
      rewrite ?(Hsup t eq_refl); simpl;
      destruct (is_trainable cls); reflexivity.
  - intros t -> Hsup. destruct i, o; simpl; rewrite Hsup; simpl; eauto.
Qed.

(** X2.  [input_dim], [output_dim] and the dtype are written once.  On a
    node where one of them is set, its setter takes the same value and
    [None] and changes nothing, and raises for every other value, the
    node left as it was; for the dtype the conflict is raised before the
    new value is looked up among the supported dtypes. *)
Theorem setters_write_once (s : Node U) :
  (forall c,
      _input_dim s = Some c ->
      set_input_dim (Some c) s = Returned tt s
      /\ set_input_dim None s = Returned tt s
      /\ (forall k, k <> c ->
                    set_input_dim (Some k) s
                    = Raised (NodeException (InputDimAlreadySet c k)) s))
  /\ (forall c,
         _output_dim s = Some c ->
         set_output_dim (Some c) s = Returned tt s
         /\ set_output_dim None s = Returned tt s
         /\ (forall k, k <> c ->
                       set_output_dim (Some k) s
                       = Raised (NodeException (OutputDimAlreadySet c k)) s))
  /\ (forall a,
         _dtype s = Some a ->
         (existsb (dtype_eqb a) (get_supported_dtypes cls) = true ->
          set_dtype cls (Some a) s = Returned tt s)
         /\ set_dtype cls None s = Returned tt s
         /\ (forall b, b <> a ->
                       set_dtype cls (Some b) s
                       = Raised (NodeException (DtypeAlreadySet a b)) s)).
Proof.
  split; [|split].
  - intros c Hc. unfold set_input_dim. unfold_monad. rewrite Hc.
    split; [|split].
    + rewrite Nat.eqb_refl. simpl. f_equal.
      destruct s; simpl in *; subst; reflexivity.
    + reflexivity.
    + intros k Hk. apply not_eq_sym, Nat.eqb_neq in Hk. rewrite Hk.
      reflexivity.
  - intros c Hc. unfold set_output_dim. unfold_monad. rewrite Hc.
    split; [|split].
    + rewrite Nat.eqb_refl. simpl. f_equal.
      destruct s; simpl in *; subst; reflexivity.
    + reflexivity.
    + intros k Hk. apply not_eq_sym, Nat.eqb_neq in Hk. rewrite Hk.
      reflexivity.
  - intros a Ha. unfold set_dtype, dtype_is_set_to_other, dtype_eqb.
    unfold_monad. rewrite Ha. split; [|split].
    + intros Hsup. rewrite String.eqb_refl. simpl.
      unfold dtype_eqb in Hsup. rewrite Hsup. simpl. f_equal.
      destruct s; simpl in *; subst; reflexivity.
    + reflexivity.
    + intros b Hb. apply not_eq_sym, String.eqb_neq in Hb. rewrite Hb.
      reflexivity.
Qed.
End Invariants.

(* ================================================================== *)
(** * Execution and inversion on a trained node *)
(* ================================================================== *)

Section Execution.
Context `{Numx} {U : Type} (cls : NodeClass U).

Lemma forced_close_returned (s s1 : Node U) :
  _training s = false \/ phase_invariant cls s ->
  _if_training_stop_training cls s = Returned tt s1 ->
  _training s1 = false
  /\ _input_dim s1 = _input_dim s /\ _output_dim s1 = _output_dim s
  /\ _dtype s1 = _dtype s.
Proof.
  intros Hs. unfold _if_training_stop_training, is_training. unfold_monad.
  destruct (_training s) eqn:Ht.
  - destruct Hs as [Hs|Hinv]; [discriminate|].
    pose proof (stop_training_preserves_invariant cls s Hinv) as Hinv1.
    destruct (stop_training cls s) as [[] s2|e s2|] eqn:Hstop;
      try discriminate.
    apply stop_training_returned in Hstop.
    destruct Hstop as (_ & _ & _ & _ & Ht2 & Hi & Ho & Hd).
    destruct (get_remaining_train_phase cls s2 >? 0)%Z eqn:Hrem;
      intros Hrun; invert_outcomes.
    destruct Hinv1 as [Hrange _]. unfold get_remaining_train_phase in *.
    rewrite Z.gtb_ltb in Hrem. apply Z.ltb_ge in Hrem.
    repeat split; auto. rewrite Ht2. apply negb_false_iff, Z.eqb_eq. lia.
  - intros Hrun. invert_outcomes. auto.
Qed.

Lemma bootstrap_returned (x : ndarray) (s s1 : Node U) :
  _training s = false \/ phase_invariant cls s ->
  (s0 <- get ;;
   if (get_current_train_phase s0 =? 0)%Z && negb (_train_phase_started s0)
   then train_all_but_last cls (loop_fuel cls) x
   else pass) s = Returned tt s1 ->
  _training s1 = false \/ phase_invariant cls s1.
Proof.
  intros Hs. unfold_monad.
  destruct ((get_current_train_phase s =? 0)%Z
            && negb (_train_phase_started s)).
  - unfold loop_fuel. cbn [train_all_but_last]. intros Hrun.
    pose proof Hrun as Hrun'.
    apply bind_returned_inv in Hrun'.
    destruct Hrun' as ([] & s2 & Htrain & _).
    apply train_returned in Htrain. destruct Htrain as (_ & Ht & _).
    destruct Hs as [Hs|Hinv]; [congruence|]. right.
    pose proof (train_all_but_last_preserves_invariant
                  cls (S (length (_get_train_seq cls))) x s Hinv) as Hp.
    cbn [train_all_but_last] in Hp. rewrite Hrun in Hp. exact Hp.
  - intros Hrun. invert_outcomes. exact Hs.
Qed.

Lemma _pre_execution_checks_returned (x : ndarray) (s s' : Node U) :
  _training s = false \/ phase_invariant cls s ->
  _pre_execution_checks cls x s = Returned tt s' ->
  _training s' = false
  /\ _input_dim s' = Some (shape_at x 1)
  /\ _output_dim s' <> None
  /\ _dtype s' <> None
  /\ ndim x = 2 /\ shape_at x 0 <> 0.
Proof.
  intros Hs Hrun. unfold _pre_execution_checks in Hrun.
  apply bind_returned_inv in Hrun. destruct Hrun as ([] & s1 & Hboot & Hrun).
  apply (bootstrap_returned x s s1 Hs) in Hboot.
  apply bind_returned_inv in Hrun. destruct Hrun as ([] & s2 & Hclose & Hrun).
  apply (forced_close_returned s1 s2 Hboot) in Hclose.
  destruct Hclose as (Ht2 & _).
  apply bind_returned_inv in Hrun. destruct Hrun as ([] & s3 & Hcheck & Hrun).
  pose proof (_check_input_frame cls x s2) as Hf. rewrite Hcheck in Hf.
  destruct Hf as (_ & _ & _ & Ht3 & _).
  apply _check_input_returned in Hcheck.
  destruct Hcheck as (Hrank & Hi & Hd & Hrows).
  unfold set_output_dim in Hrun. unfold_monad.
  destruct (_output_dim s3) eqn:Ho; invert_outcomes.
  - repeat split; auto; congruence.
  - rewrite Hi in Hrun. rewrite Ho in Hrun. invert_outcomes.
    simpl. repeat split; auto; congruence.
Qed.

(** X5.  An [execute] that returns leaves the node ready: on a node that
    is out of training or whose phase index is within its declared
    phases, the node is out of training afterwards, [input_dim] is the
    column count of the array, [output_dim] and the dtype are set, and
    the array had two dimensions and at least one row. *)
Theorem execute_returned_leaves_node_ready
        (x r : ndarray) (s s' : Node U) :
  _training s = false \/ phase_invariant cls s ->
  execute cls x s = Returned r s' ->
  _training s' = false
  /\ _input_dim s' = Some (shape_at x 1)
  /\ _output_dim s' <> None
  /\ _dtype s' <> None
  /\ ndim x = 2 /\ shape_at x 0 <> 0.
Proof.
  intros Hs Hrun. unfold execute in Hrun.
  apply bind_returned_inv in Hrun. destruct Hrun as ([] & s1 & Hpre & Hrun).
  apply (_pre_execution_checks_returned x s s1 Hs) in Hpre.
  unfold_monad. destruct (_execute cls _ s1); invert_outcomes.
  exact Hpre.
Qed.

(** ** [inverse] and the input side *)

Lemma stop_training_keeps_input_side :
  ensures (fun s s' : Node U =>
             _input_dim s' = _input_dim s /\ _dtype s' = _dtype s)
          (stop_training cls).
Proof.
  intros s. destruct (stop_training cls s) as [[] s'|e s'|] eqn:Hrun; auto.
  - apply stop_training_returned in Hrun. tauto.
  - apply stop_training_raised in Hrun. rewrite Hrun. simpl. auto.
Qed.

Lemma inverse_keeps_input_side (y : ndarray) :
  ensures (fun s s' : Node U =>
             _input_dim s' = _input_dim s /\ _dtype s' = _dtype s)
          (inverse cls y).
Proof.
  assert (Htrans : forall a b c : Node U,
            _input_dim b = _input_dim a /\ _dtype b = _dtype a ->
            _input_dim c = _input_dim b /\ _dtype c = _dtype b ->
            _input_dim c = _input_dim a /\ _dtype c = _dtype a).
  { intros a b c [? ?] [? ?]. split; congruence. }
  unfold inverse, _pre_inversion_checks.
  apply ensures_bind; [exact Htrans | |].
  - apply ensures_bind; [exact Htrans | |].
    { intros s. unfold_monad. split_cases; auto. }
    intros _. apply ensures_bind; [exact Htrans | |].
    { intros s. unfold _if_training_stop_training, is_training.
      unfold_monad. pose proof (stop_training_keeps_input_side s) as Hstop.
      destruct (_training s); [|auto].
      destruct (stop_training cls s) as [[] s1|e s1|]; auto.
      split_cases; auto. }
    intros _. apply ensures_bind; [exact Htrans | |].
    { intros s. unfold set_output_dim. unfold_monad.
      split_cases; simpl; auto. }
    intros _ s. unfold _check_output. unfold_monad. split_cases; auto.
  - intros _ s. unfold_monad. destruct (_inverse cls _ s); simpl; auto.
Qed.

(** X6.  [inverse] learns nothing from its array: whether it returns or
    raises, [input_dim] and the dtype of the node are what they were
    before the call.  When it returns, on a node that is out of training
    or whose phase index is within its declared phases, the node is out
    of training and [output_dim] is the column count of the
    two-dimensional array. *)
Theorem inverse_never_sets_input_dim_or_dtype
        (y : ndarray) (s : Node U) :
  lands_in (fun s' => _input_dim s' = _input_dim s /\ _dtype s' = _dtype s)
           (inverse cls y s)
  /\ (forall r s',
         _training s = false \/ phase_invariant cls s ->
         inverse cls y s = Returned r s' ->
         _training s' = false
         /\ _output_dim s' = Some (shape_at y 1)
         /\ ndim y = 2).
Proof.
  split.
  - pose proof (inverse_keeps_input_side y s) as Hk.
    destruct (inverse cls y s); simpl; auto.
  - intros r s' Hs Hrun. unfold inverse, _pre_inversion_checks in Hrun.
    apply bind_returned_inv in Hrun.
    destruct Hrun as ([] & s4 & Hpre & Hrun).
    apply bind_returned_inv in Hpre. destruct Hpre as ([] & s1 & Hg & Hpre).
    assert (s1 = s) as ->.
    { unfold_monad. destruct (negb (is_invertible cls));
        invert_outcomes; reflexivity. }
    apply bind_returned_inv in Hpre. destruct Hpre as ([] & s2 & Hc & Hpre).
    apply (forced_close_returned s s2 Hs) in Hc. destruct Hc as (Ht2 & _).
    apply bind_returned_inv in Hpre. destruct Hpre as ([] & s3 & Hd & Hpre).
    assert (Ht3 : _training s3 = false).
    { unfold set_output_dim in Hd. unfold_monad.
      split_cases; invert_outcomes; simpl; assumption. }
    unfold _check_output in Hpre. unfold_monad.
    split_cases; invert_outcomes; decide_tests; simpl.
    all: repeat split; congruence.
Qed.

Lemma _pre_inversion_checks_out_of_training
      (y : ndarray) (s : Node U) (d : nat) :
  is_invertible cls = true ->
  _training s = false ->
  _output_dim s = Some d \/ (_output_dim s = None /\ _input_dim s = Some d) ->
  _pre_inversion_checks cls y s
  = _check_output y (with_output_dim (Some d) s).
Proof.
  intros Hinv Ht Hd. unfold _pre_inversion_checks. unfold_monad.
  rewrite Hinv. simpl.
  rewrite (_if_training_stop_training_idle cls s Ht).
  destruct Hd as [Ho|[Ho Hi]].
  - rewrite Ho, (with_output_dim_same s d Ho). reflexivity.
  - rewrite Ho, Hi. unfold set_output_dim. unfold_monad.
    rewrite Ho. reflexivity.
Qed.

Lemma inverse_other_columns (y : ndarray) (s : Node U) (d : nat) :
  is_invertible cls = true ->
  _training s = false ->
  _output_dim s = Some d \/ (_output_dim s = None /\ _input_dim s = Some d) ->
  ndim y = 2 -> shape_at y 1 <> d ->
  inverse cls y s
  = Raised (NodeException (YDimension (shape_at y 1) d))
           (with_output_dim (Some d) s).
Proof.
  intros Hinv Ht Hd Hrank Hcols. unfold inverse. unfold bind at 1.
  rewrite (_pre_inversion_checks_out_of_training y s d Hinv Ht Hd).
  unfold _check_output. unfold_monad.
  rewrite Hrank. simpl. apply Nat.eqb_neq in Hcols. rewrite Hcols.
  reflexivity.
Qed.

(** X7.  [inverse] turns down what is not a two-dimensional array with
    [output_dim] columns.  On an invertible node that is not training,
    where [d] is [output_dim] or, [output_dim] unset, [input_dim], an
    array of another rank raises the rank error and a two-dimensional
    array with another column count the dimension error; the node is
    left with [output_dim] set to [d]. *)
Theorem inverse_rejects_other_shapes (y : ndarray) (s : Node U) (d : nat) :
  is_invertible cls = true ->
  _training s = false ->
  _output_dim s = Some d \/ (_output_dim s = None /\ _input_dim s = Some d) ->
  (ndim y <> 2 ->
   inverse cls y s
   = Raised (NodeException (YRank (ndim y))) (with_output_dim (Some d) s))
  /\ (ndim y = 2 -> shape_at y 1 <> d ->
      inverse cls y s
      = Raised (NodeException (YDimension (shape_at y 1) d))
               (with_output_dim (Some d) s)).
Proof.
  intros Hinv Ht Hd. split.
  - intros Hrank. unfold inverse. unfold bind at 1.
    rewrite (_pre_inversion_checks_out_of_training y s d Hinv Ht Hd).
    unfold _check_output. unfold_monad.
    apply Nat.eqb_neq in Hrank. rewrite Hrank. reflexivity.
  - apply inverse_other_columns; assumption.
Qed.
End Execution.

(* ================================================================== *)
(** * Closing phases; the defaults of Node *)
(* ================================================================== *)

Section Closing.
Context `{Numx} {U : Type} (cls : NodeClass U).

Lemma stop_training_closes (s : Node U) (u : U) :
  _training s = true -> _train_phase_started s = true ->
  (exists p, py_index (_get_train_seq cls) (_train_phase s) = Some p
             /\ snd p s = HReturn tt u) ->
  stop_training cls s = Returned tt (close_phase cls u s).
Proof.
  intros Ht Hs (p & Hp & Hstep).
  unfold stop_training, is_training, current_phase, close_phase.
  unfold_monad. rewrite Ht, Hs. simpl. rewrite Ht. simpl.
  rewrite Hp, Hstep.
  destruct (get_remaining_train_phase cls _ =? 0)%Z; reflexivity.
Qed.

(** X8.  The forced close of [execute] and [inverse] closes one phase
    and no more.  On a node in training whose current phase is started
    and whose stop-step returns, with more than one phase left, the
    forced close raises the phases-not-completed error only after the
    current phase is closed: the phase index is one higher and
    [phase_started] is false in the state the error leaves. *)
Theorem forced_close_closes_one_phase_then_raises (s : Node U) (u : U) :
  _training s = true ->
  _train_phase_started s = true ->
  (exists p, py_index (_get_train_seq cls) (_train_phase s) = Some p
             /\ snd p s = HReturn tt u) ->
  (1 < get_remaining_train_phase cls s)%Z ->
  _if_training_stop_training cls s
  = Raised (TrainingException PhasesNotCompleted) (close_phase cls u s)
  /\ _train_phase (close_phase cls u s) = (_train_phase s + 1)%Z
  /\ _train_phase_started (close_phase cls u s) = false
  /\ _training (close_phase cls u s) = true.
Proof.
  intros Ht Hs Hstep Hrem.
  pose proof (stop_training_closes s u Ht Hs Hstep) as Hstop.
  assert (Hclosed : close_phase cls u s
                    = with_train_phase_started false
                        (with_train_phase (_train_phase s + 1)
                                          (with_attrs u s))).
  { unfold close_phase, get_remaining_train_phase in *. simpl.
    destruct (Z.eqb_spec
                (Z.of_nat (length (_get_train_seq cls)) - (_train_phase s + 1))
                0); [lia | reflexivity]. }
  split; [|rewrite Hclosed; simpl; auto].
  unfold _if_training_stop_training, is_training. unfold_monad.
  rewrite Ht, Hstop. rewrite Hclosed.
  unfold get_remaining_train_phase in *. simpl.
  destruct (Z.gtb_spec
              (Z.of_nat (length (_get_train_seq cls)) - (_train_phase s + 1))
              0); [reflexivity | lia].
Qed.

(** X9.  A phase cannot be closed twice.  After a [stop_training] that
    returned, a second [stop_training] raises and changes nothing: the
    training-not-started error while phases are left, the
    training-finished error when none is; and when none is left [train]
    on a trainable node raises the training-finished error for every
    array. *)
Theorem stop_training_twice_raises (s s1 : Node U) :
  stop_training cls s = Returned tt s1 ->
  (_training s1 = true ->
   stop_training cls s1 = Raised (TrainingException NodeNotTrained) s1)
  /\ (_training s1 = false ->
      stop_training cls s1 = Raised TrainingFinishedException s1
      /\ (is_trainable cls = true ->
          forall x, train cls x s1 = Raised TrainingFinishedException s1)).
Proof.
  intros Hrun. pose proof Hrun as Hfacts.
  apply stop_training_returned in Hfacts.
  destruct Hfacts as (Ht & _ & _ & Hs1 & _).
  split.
  - intros Ht1. unfold stop_training, is_training. unfold_monad.
    rewrite Ht1, Hs1. reflexivity.
  - intros Ht1. split.
    + unfold stop_training, is_training. unfold_monad.
      rewrite Ht1. simpl. rewrite Ht1. reflexivity.
    + intros Htr x. unfold train, is_training. unfold_monad.
      rewrite Htr. simpl. rewrite Ht1. reflexivity.
Qed.

(** ** The defaults of [Node] *)

(** X10.  [Node] itself cannot be trained: its [_train] raises
    [NotImplementedError].  [train] on a [Node] never returns, in no
    state and for no array; on a node in training at phase 0 an array
    that passes the validation gets as far as the train-step, so that the
    error leaves [phase_started] true, and [execute] on such a node, no
    phase started, raises the same error. *)
Theorem Node_train_is_not_implemented (x : ndarray) (s : Node unit) :
  (forall s', train Node_class x s <> Returned tt s')
  /\ (_training s = true -> _train_phase s = 0%Z ->
      forall s1,
        _check_input Node_class x s = Returned tt s1 ->
        train Node_class x s
        = Raised NotImplementedError (with_train_phase_started true s1)
        /\ (_train_phase_started s = false ->
            execute Node_class x s
            = Raised NotImplementedError
                     (with_train_phase_started true s1))).
Proof.
  split.
  - intros s' Hrun. unfold train, current_phase, py_index in Hrun.
    unfold_monad. simpl in Hrun.
    split_cases; invert_outcomes.
    all: repeat match goal with
           | E : nth_error [_] ?n = Some _ |- _ =>
               destruct n as [|[|?]]; simpl in E;
               try discriminate; injection E as <-
           end.
    all: simpl in *; discriminate.
  - intros Ht Hp s1 Hcheck.
    pose proof (_check_input_frame Node_class x s) as Hf.
    rewrite Hcheck in Hf. destruct Hf as (_ & _ & _ & _ & Hp1 & _ & Ha).
    assert (Htrain : train Node_class x s
                     = Raised NotImplementedError
                              (with_train_phase_started true s1)).
    { unfold train, is_training, current_phase. unfold_monad.
      simpl. rewrite Ht. simpl. rewrite Hcheck. simpl.
      rewrite Hp1, Hp. simpl. destruct s1; simpl in *. destruct attrs.
      reflexivity. }
    split; [exact Htrain|].
    intros Hs. apply execute_bootstrap_raises_train_error; assumption.
Qed.
End Closing.

(* ================================================================== *)
(** * A settled node; the identity defaults *)
(* ================================================================== *)

Section Settled.
Context `{Numx} {U : Type} (cls : NodeClass U).

Lemma refcast_dtype (x : ndarray) (t : dtype) :
  arr_dtype (refcast x (Some t)) = t.
Proof.
  unfold refcast. destruct (dtype_eqb (arr_dtype x) t) eqn:Heq; simpl; auto.
  apply String.eqb_eq in Heq. exact Heq.
Qed.

Lemma refcast_twice (x : ndarray) (t : dtype) :
  refcast (refcast x (Some t)) (Some t) = refcast x (Some t).
Proof.
  unfold refcast at 1. rewrite refcast_dtype.
  unfold dtype_eqb. rewrite String.eqb_refl. reflexivity.
Qed.

Lemma refcast_same_dtype (x : ndarray) :
  refcast x (Some (arr_dtype x)) = x.
Proof.
  unfold refcast, dtype_eqb. rewrite String.eqb_refl. reflexivity.
Qed.

Lemma train_all_but_last_returned (fuel : nat) (x : ndarray)
      (s s1 : Node U) :
  train_all_but_last cls fuel x s = Returned tt s1 ->
  _training s1 = true /\ _train_phase_started s1 = true.
Proof.
  revert s. induction fuel as [|fuel IH]; intros s Hrun; simpl in Hrun;
    [discriminate|].
  apply bind_returned_inv in Hrun. destruct Hrun as ([] & s2 & Htrain & Hrun).
  apply train_returned_lifecycle in Htrain.
  unfold_monad.
  destruct (get_remaining_train_phase cls s2 >? 1)%Z.
  - destruct (stop_training cls s2) as [[] s3|e s3|]; try discriminate.
    apply (IH s3 Hrun).
  - invert_outcomes. tauto.
Qed.

(** The lifecycle of a node on which the pre-execution checks have
    returned: out of training, and the bootstrap is not run again. *)
Lemma _pre_execution_checks_returned_lifecycle
      (x : ndarray) (s s' : Node U) :
  _training s = false \/ phase_invariant cls s ->
  _pre_execution_checks cls x s = Returned tt s' ->
  _training s' = false
  /\ (_train_phase s' <> 0%Z \/ _train_phase_started s' = true).
Proof.
  intros Hs Hrun.
  destruct (_pre_execution_checks_returned cls x s s' Hs Hrun) as (Ht' & _).
  split; [exact Ht'|].
  unfold _pre_execution_checks in Hrun.
  apply bind_returned_inv in Hrun. destruct Hrun as ([] & s1 & Hboot & Hrun).
  pose proof (bootstrap_returned cls x s s1 Hs Hboot) as Hs1.
  assert (Hopen : _training s1 = true
                  \/ (_train_phase s1 <> 0%Z
                      \/ _train_phase_started s1 = true)).
  { unfold_monad.
    destruct ((get_current_train_phase s =? 0)%Z
              && negb (_train_phase_started s)) eqn:Hguard.
    - left. apply (train_all_but_last_returned _ x s s1 Hboot).
    - invert_outcomes. right.
      apply andb_false_iff in Hguard. destruct Hguard as [Hp|Hst].
      + left. apply Z.eqb_neq in Hp. exact Hp.
      + right. apply negb_false_iff in Hst. exact Hst. }
  apply bind_returned_inv in Hrun. destruct Hrun as ([] & s2 & Hclose & Hrun).
  assert (Hs2 : _train_phase s2 <> 0%Z \/ _train_phase_started s2 = true).
  { unfold _if_training_stop_training, is_training in Hclose.
    unfold_monad. destruct (_training s1) eqn:Ht1.
    - destruct Hs1 as [Hs1|[Hrange _]]; [discriminate|].
      destruct (stop_training cls s1) as [[] s3|e s3|] eqn:Hstop;
        try discriminate.
      apply stop_training_returned in Hstop.
      destruct Hstop as (_ & _ & Hp3 & _).
      destruct (get_remaining_train_phase cls s3 >? 0)%Z;
        invert_outcomes. left. lia.
    - invert_outcomes. destruct Hopen as [Hopen|Hopen];
        [discriminate | exact Hopen]. }
  apply bind_returned_inv in Hrun. destruct Hrun as ([] & s3 & Hcheck & Hrun).
  pose proof (_check_input_frame cls x s2) as Hf. rewrite Hcheck in Hf.
  destruct Hf as (_ & _ & _ & _ & Hp3 & Hst3 & _).
  unfold set_output_dim in Hrun. unfold_monad.
  split_cases; invert_outcomes; simpl; rewrite ?Hp3, ?Hst3; exact Hs2.
Qed.

(** On a node out of training that does not bootstrap, with [input_dim],
    [output_dim] and the dtype set, the pre-execution checks of an array
    with [input_dim] columns and at least one row change nothing. *)
Lemma _pre_execution_checks_settled (x : ndarray) (s : Node U) :
  _training s = false ->
  _train_phase s <> 0%Z \/ _train_phase_started s = true ->
  _input_dim s = Some (shape_at x 1) ->
  _output_dim s <> None -> _dtype s <> None ->
  ndim x = 2 -> shape_at x 0 <> 0 ->
  _pre_execution_checks cls x s = Returned tt s.
Proof.
  intros Ht Hskip Hi Ho Hd Hrank Hrows.
  unfold _pre_execution_checks, get_current_train_phase. unfold_monad.
  assert (Hguard : ((_train_phase s =? 0)%Z
                    && negb (_train_phase_started s)) = false).
  { destruct Hskip as [Hp|Hs].
    - apply Z.eqb_neq in Hp. rewrite Hp. reflexivity.
    - rewrite Hs. apply andb_false_r. }
  rewrite Hguard, (_if_training_stop_training_idle cls s Ht).
  rewrite (_check_input_accepts cls x s (shape_at x 1)); auto.
  destruct (_output_dim s); [reflexivity | congruence].
Qed.

(** X11.  Once [execute] has returned, the node is settled: for every
    further two-dimensional array with the same column count and at
    least one row, of whatever dtype, the pre-execution checks return and
    change nothing, and [execute] is the execute-step on the array cast
    to the dtype of the node. *)
Theorem execute_again_only_runs_the_execute_step
        (x r x' : ndarray) (s s1 : Node U) :
  _training s = false \/ phase_invariant cls s ->
  execute cls x s = Returned r s1 ->
  ndim x' = 2 -> shape_at x' 1 = shape_at x 1 -> shape_at x' 0 <> 0 ->
  _pre_execution_checks cls x' s1 = Returned tt s1
  /\ execute cls x' s1 = call (_execute cls (refcast x' (_dtype s1))) s1.
Proof.
  intros Hs Hrun Hrank Hcols Hrows. unfold execute in Hrun.
  apply bind_returned_inv in Hrun. destruct Hrun as ([] & s2 & Hpre & Hrun).
  destruct (_pre_execution_checks_returned cls x s s2 Hs Hpre)
    as (Ht & Hi & Ho & Hd & _).
  destruct (_pre_execution_checks_returned_lifecycle x s s2 Hs Hpre)
    as (_ & Hskip).
  assert (Hs1 : exists u, s1 = with_attrs u s2).
  { unfold_monad. destruct (_execute cls _ s2) as [r0 u|e u];
      invert_outcomes. exists u. reflexivity. }
  destruct Hs1 as (u & ->).
  assert (Hpre' : _pre_execution_checks cls x' (with_attrs u s2)
                  = Returned tt (with_attrs u s2)).
  { apply _pre_execution_checks_settled; simpl; auto. congruence. }
  split; [exact Hpre'|].
  unfold execute. unfold bind at 1. rewrite Hpre'. reflexivity.
Qed.

(** ** The identity defaults *)

Lemma default_execute_returns (x : ndarray) (s : Node U) :
  _execute cls = Node__execute ->
  _training s = false ->
  _train_phase s <> 0%Z \/ _train_phase_started s = true ->
  _input_dim s = Some (shape_at x 1) ->
  _output_dim s <> None -> _dtype s <> None ->
  ndim x = 2 -> shape_at x 0 <> 0 ->
  execute cls x s = Returned (refcast x (_dtype s)) s.
Proof.
  intros Hdef Ht Hskip Hi Ho Hd Hrank Hrows.
  unfold execute. unfold bind at 1.
  rewrite _pre_execution_checks_settled by assumption.
  unfold_monad. rewrite Hdef. unfold Node__execute.
  rewrite with_attrs_same. reflexivity.
Qed.

(** X12.  The default [_execute] and [_inverse] are the identity, and
    [inverse] undoes [execute].  On a settled node (out of training,
    [input_dim] and the dtype set, [output_dim] equal to [input_dim])
    whose class keeps both defaults and is invertible, [execute] returns
    the array cast to the dtype of the node and changes nothing, and
    [inverse] of that result returns it again; an array that has the
    dtype of the node comes back as it is. *)
Theorem default_inverse_undoes_default_execute
        (x : ndarray) (s : Node U) (t : dtype) :
  _execute cls = Node__execute ->
  _inverse cls = Node__inverse true ->
  is_invertible cls = true ->
  _training s = false ->
  _train_phase s <> 0%Z \/ _train_phase_started s = true ->
  _input_dim s = Some (shape_at x 1) ->
  _output_dim s = Some (shape_at x 1) ->
  _dtype s = Some t ->
  ndim x = 2 -> shape_at x 0 <> 0 ->
  execute cls x s = Returned (refcast x (Some t)) s
  /\ inverse cls (refcast x (Some t)) s
     = Returned (Some (refcast x (Some t))) s
  /\ (arr_dtype x = t ->
      execute cls x s = Returned x s
      /\ inverse cls x s = Returned (Some x) s).
Proof.
  intros Hexe Hinv Hible Ht Hskip Hi Ho Hd Hrank Hrows.
  assert (Hrun : execute cls x s = Returned (refcast x (Some t)) s).
  { rewrite <- Hd. apply default_execute_returns; auto; congruence. }
  assert (Hback : inverse cls (refcast x (Some t)) s
                  = Returned (Some (refcast x (Some t))) s).
  { unfold inverse. unfold bind at 1.
    rewrite (_pre_inversion_checks_out_of_training
               cls _ s (shape_at x 1) Hible Ht (or_introl Ho)).
    rewrite (with_output_dim_same s _ Ho).
    rewrite _check_output_accepts.
    - unfold_monad. rewrite Hinv, Hd, refcast_twice.
      unfold Node__inverse. rewrite with_attrs_same. reflexivity.
    - unfold ndim in *. rewrite refcast_shape. exact Hrank.
    - unfold shape_at in *. rewrite refcast_shape. exact Ho. }
  split; [exact Hrun|]. split; [exact Hback|].
  intros <-. rewrite refcast_same_dtype in *. auto.
Qed.

(** X13.  [execute] does not check what it returns against
    [output_dim].  On a settled node whose class keeps the default
    [_execute] and is invertible, constructed with an [output_dim] other
    than its [input_dim], [execute] returns the array with its
    [input_dim] columns, and [inverse] of that very result raises the
    dimension error. *)
Theorem execute_does_not_check_output_dim
        (x : ndarray) (s : Node U) (d : nat) :
  _execute cls = Node__execute ->
  is_invertible cls = true ->
  _training s = false ->
  _train_phase s <> 0%Z \/ _train_phase_started s = true ->
  _input_dim s = Some (shape_at x 1) ->
  _output_dim s = Some d -> d <> shape_at x 1 ->
  _dtype s <> None ->
  ndim x = 2 -> shape_at x 0 <> 0 ->
  execute cls x s = Returned (refcast x (_dtype s)) s
  /\ inverse cls (refcast x (_dtype s)) s
     = Raised (NodeException (YDimension (shape_at x 1) d)) s.
Proof.
  intros Hexe Hible Ht Hskip Hi Ho Hdiff Hd Hrank Hrows.
  split.
  - apply default_execute_returns; auto; congruence.
  - pose proof (inverse_other_columns
                  cls (refcast x (_dtype s)) s d Hible Ht (or_introl Ho))
      as Hback.
    rewrite (with_output_dim_same s d Ho) in Hback.
    unfold ndim, shape_at in *. rewrite refcast_shape in Hback.
    apply Hback; auto.
Qed.
End Settled.

(* ================================================================== *)
(** * The bootstrap through every phase *)
(* ================================================================== *)

Section EveryPhase.
Context `{Numx} {U : Type} (cls : NodeClass U).

(** An array the validation accepts on a node that may still be unset. *)
Lemma _check_input_returns (x : ndarray) (s : Node U) :
  ndim x = 2 -> shape_at x 0 <> 0 ->
  _input_dim s = None \/ _input_dim s = Some (shape_at x 1) ->
  _dtype s <> None
  \/ existsb (dtype_eqb (arr_dtype x)) (get_supported_dtypes cls) = true ->
  exists s1, _check_input cls x s = Returned tt s1.
Proof.
  intros Hrank Hrows Hdim Hdt.
  unfold _check_input, set_input_dim, set_dtype, dtype_is_set_to_other.
  unfold_monad. rewrite Hrank. apply Nat.eqb_neq in Hrows. rewrite Hrows.
  split_cases; decide_tests; eauto; exfalso.
  all: try discriminate.
  all: try (destruct Hdim; congruence).
  all: try (destruct Hdt; congruence).
Qed.

Lemma phase_in_range (s : Node U) :
  (0 <= _train_phase s < Z.of_nat (length (_get_train_seq cls)))%Z ->
  exists p, py_index (_get_train_seq cls) (_train_phase s) = Some p
            /\ In p (_get_train_seq cls).
Proof.
  intros Hrange. unfold py_index.
  destruct (Z.leb_spec 0 (_train_phase s)); [|lia].
  destruct (Z.ltb_spec (_train_phase s)
                       (Z.of_nat (length (_get_train_seq cls)))); [|lia].
  simpl.
  destruct (nth_error (_get_train_seq cls) (Z.to_nat (_train_phase s)))
    as [p|] eqn:Hnth.
  - exists p. split; [reflexivity|]. eapply nth_error_In; eauto.
  - apply nth_error_None in Hnth. lia.
Qed.

Lemma train_returns (x : ndarray) (s : Node U) :
  steps_always_return cls ->
  is_trainable cls = true -> _training s = true ->
  (0 <= _train_phase s < Z.of_nat (length (_get_train_seq cls)))%Z ->
  ndim x = 2 -> shape_at x 0 <> 0 ->
  _input_dim s = None \/ _input_dim s = Some (shape_at x 1) ->
  _dtype s <> None
  \/ existsb (dtype_eqb (arr_dtype x)) (get_supported_dtypes cls) = true ->
  exists s1, train cls x s = Returned tt s1.
Proof.
  intros (Hargs & Hsteps & _) Htr Ht Hrange Hrank Hrows Hdim Hdt.
  destruct (_check_input_returns x s Hrank Hrows Hdim Hdt) as (s1 & Hc).
  pose proof (_check_input_frame cls x s) as Hf. rewrite Hc in Hf.
  destruct Hf as (_ & _ & _ & _ & Hp1 & _).
  unfold train, is_training, current_phase. unfold_monad.
  rewrite Htr. simpl. rewrite Ht. simpl. rewrite Hc.
  destruct (Hargs x s1) as (u & ->). simpl. rewrite Hp1.
  destruct (phase_in_range s Hrange) as (p & -> & Hin).
  rewrite Forall_forall in Hsteps. destruct (Hsteps p Hin) as (Hfst & _).
  match goal with
  | |- context [fst p ?a ?b] => destruct (Hfst a b) as (u' & ->)
  end.
  eauto.
Qed.

Lemma stop_training_returns (s : Node U) :
  steps_always_return cls ->
  _training s = true -> _train_phase_started s = true ->
  (0 <= _train_phase s < Z.of_nat (length (_get_train_seq cls)))%Z ->
  exists s1, stop_training cls s = Returned tt s1.
Proof.
  intros (_ & Hsteps & _) Ht Hs Hrange.
  destruct (phase_in_range s Hrange) as (p & Hp & Hin).
  rewrite Forall_forall in Hsteps. destruct (Hsteps p Hin) as (_ & Hsnd).
  destruct (Hsnd s) as (u & Hu).
  exists (close_phase cls u s). apply stop_training_closes; eauto.
Qed.

(** The loop of the bootstrap goes through every phase but the last and
    stops with the last one started. *)
Lemma train_all_but_last_returns (x : ndarray) (fuel : nat) (s : Node U) :
  steps_always_return cls ->
  is_trainable cls = true -> _training s = true ->
  (0 <= _train_phase s < Z.of_nat (length (_get_train_seq cls)))%Z ->
  ndim x = 2 -> shape_at x 0 <> 0 ->
  _input_dim s = None \/ _input_dim s = Some (shape_at x 1) ->
  _dtype s <> None
  \/ existsb (dtype_eqb (arr_dtype x)) (get_supported_dtypes cls) = true ->
  (get_remaining_train_phase cls s <= Z.of_nat fuel)%Z ->
  exists s1,
    train_all_but_last cls fuel x s = Returned tt s1
    /\ _train_phase s1 = (Z.of_nat (length (_get_train_seq cls)) - 1)%Z
    /\ _training s1 = true /\ _train_phase_started s1 = true
    /\ _input_dim s1 = Some (shape_at x 1) /\ _dtype s1 <> None.
Proof.
  intros Hret Htr. revert s.
  induction fuel as [|fuel IH];
    intros s Ht Hrange Hrank Hrows Hdim Hdt Hfuel;
    unfold get_remaining_train_phase in *; [lia|].
  destruct (train_returns x s Hret Htr Ht Hrange Hrank Hrows Hdim Hdt)
    as (s1 & Htrain).
  destruct (train_returned_lifecycle cls x s s1 Htrain) as (Hp1 & Ht1 & Hs1).
  destruct (train_returned cls x s s1 Htrain) as (_ & _ & _ & Hi1 & Hd1 & _).
  cbn [train_all_but_last]. unfold_monad. rewrite Htrain.
  unfold get_remaining_train_phase.
  destruct (Z.gtb_spec
              (Z.of_nat (length (_get_train_seq cls)) - _train_phase s1) 1)
    as [Hmore|Hlast].
  - assert (Hrange1 : (0 <= _train_phase s1
                       < Z.of_nat (length (_get_train_seq cls)))%Z) by lia.
    destruct (stop_training_returns s1 Hret Ht1 Hs1 Hrange1) as (s2 & Hstop).
    rewrite Hstop. apply stop_training_returned in Hstop.
    destruct Hstop as (_ & _ & Hp2 & _ & Ht2 & Hi2 & _ & Hd2).
    apply IH.
    + rewrite Ht2. unfold get_remaining_train_phase.
      apply negb_true_iff, Z.eqb_neq. lia.
    + lia.
    + exact Hrank.
    + exact Hrows.
    + right. congruence.
    + left. congruence.
    + lia.
  - exists s1. repeat split; auto. lia.
Qed.

(** X14.  [execute] on a new node trains it through every phase.  For a
    trainable class with at least one phase whose override points never
    raise, a freshly constructed node and a two-dimensional array with
    at least one row that fits what the node was constructed with,
    [execute] returns, and the node is then past its last phase and out
    of training. *)
Theorem execute_trains_every_phase (x : ndarray) (s : Node U) :
  steps_always_return cls ->
  is_trainable cls = true ->
  _get_train_seq cls <> [] ->
  fresh cls s ->
  ndim x = 2 -> shape_at x 0 <> 0 ->
  _input_dim s = None \/ _input_dim s = Some (shape_at x 1) ->
  _dtype s <> None
  \/ existsb (dtype_eqb (arr_dtype x)) (get_supported_dtypes cls) = true ->
  exists r s',
    execute cls x s = Returned r s'
    /\ _train_phase s' = Z.of_nat (length (_get_train_seq cls))
    /\ _training s' = false.
Proof.
  intros Hret Htr Hseq Hfresh Hrank Hrows Hdim Hdt.
  destruct (fresh_trainable cls s Htr Hfresh) as (Hp & Hs & Ht).
  assert (Hlen : (0 < Z.of_nat (length (_get_train_seq cls)))%Z).
  { destruct (_get_train_seq cls); [congruence | simpl length; lia]. }
  destruct (train_all_but_last_returns x (loop_fuel cls) s)
    as (s1 & Hloop & Hp1 & Ht1 & Hs1 & Hi1 & Hd1); auto.
  { lia. }
  { unfold get_remaining_train_phase, loop_fuel. lia. }
  destruct (stop_training_returns s1 Hret Ht1 Hs1) as (s2 & Hstop);
    [lia|].
  pose proof Hstop as Hfacts. apply stop_training_returned in Hfacts.
  destruct Hfacts as (_ & _ & Hp2 & Hs2 & Ht2 & Hi2 & _ & Hd2).
  assert (Hrem2 : get_remaining_train_phase cls s2 = 0%Z).
  { unfold get_remaining_train_phase. lia. }
  rewrite Hrem2 in Ht2. simpl in Ht2.
  assert (Hcheck : _check_input cls x s2 = Returned tt s2).
  { apply (_check_input_accepts cls x s2 (shape_at x 1)); congruence. }
  destruct Hret as (_ & _ & Hexe).
  unfold execute, _pre_execution_checks, get_current_train_phase.
  unfold_monad. rewrite Hp, Hs. cbn [Z.eqb negb andb].
  rewrite Hloop.
  unfold _if_training_stop_training, is_training. unfold_monad.
  rewrite Ht1, Hstop, Hrem2. cbn [Z.gtb Z.compare].
  rewrite Hcheck.
  destruct (_output_dim s2) eqn:Ho.
  - destruct (Hexe (refcast x (_dtype s2)) s2) as (r & u & ->).
    exists r, (with_attrs u s2). repeat split; simpl; auto. lia.
  - unfold set_output_dim. unfold_monad. rewrite Ho, Hi2, Hi1.
    match goal with
    | |- context [_execute cls ?a ?b] =>
        destruct (Hexe a b) as (r & u & ->)
    end.
    eexists _, _. split; [reflexivity|]. simpl. split; [lia | auto].
Qed.
End EveryPhase.

(* ================================================================== *)
(** * The Cumulator and its batches *)
(* ================================================================== *)

Section CumulatorBatches.
Context `{Numx}.

Lemma refcast_vstack (x1 x2 : ndarray) (t : dtype) :
  arr_dtype x2 = arr_dtype x1 ->
  items (refcast (vstack x1 x2) (Some t))
  = items (refcast x1 (Some t)) ++ items (refcast x2 (Some t)).
Proof.
  intros Hsame. unfold refcast, vstack. simpl. rewrite Hsame.
  destruct (dtype_eqb (arr_dtype x1) t); simpl;
    [reflexivity | apply map_app].
Qed.

(** X15.  A [Cumulator] does not see how its rows are cut into batches:
    while it gathers, one [train] call with the rows of [x1] followed by
    the rows of [x2], two arrays of one dtype with [c] columns and at
    least one row each, leaves the node in the state the two calls
    [train x1], [train x2] leave it in. *)
Theorem Cumulator_one_batch_or_two
        (s : Node CumulatorAttrs) (x1 x2 : ndarray) (c r1 r2 : nat)
        (t : dtype) (l : list scalar) (n : nat) :
  _training s = true -> _train_phase s = 0%Z ->
  attrs s = mkCumulator (DataList l) n ->
  shape x1 = [S r1; c] -> shape x2 = [S r2; c] ->
  arr_dtype x2 = arr_dtype x1 ->
  _input_dim s = None \/ _input_dim s = Some c ->
  _dtype s = Some t
  \/ (_dtype s = None /\ arr_dtype x1 = t
      /\ existsb (dtype_eqb t) all_dtypes = true) ->
  train Cumulator_class (vstack x1 x2) s
  = (train Cumulator_class x1 ;; train Cumulator_class x2) s
  /\ exists s', train Cumulator_class (vstack x1 x2) s = Returned tt s'.
Proof.
  intros Ht Hp Hattrs Hs1 Hs2 Hsame Hdim Hdt.
  assert (Hv : shape (vstack x1 x2) = [S (r1 + S r2); c]).
  { unfold vstack, shape_at. simpl. rewrite Hs1, Hs2. reflexivity. }
  assert (Hone :
            train Cumulator_class (vstack x1 x2) s
            = Returned tt
                (gathering (_output_dim s) c t
                   (l ++ items (refcast (vstack x1 x2) (Some t)))
                   (n + S (r1 + S r2)))).
  { apply Cumulator_train_returns; auto. }
  split; [|rewrite Hone; eauto].
  rewrite Hone. unfold bind.
  rewrite (Cumulator_train_returns s x1 c r1 t l n) by auto.
  rewrite (Cumulator_train_returns _ x2 c r2 t
             (l ++ items (refcast x1 (Some t))) (n + S r1));
    try reflexivity; auto.
  simpl. rewrite refcast_vstack by assumption.
  rewrite <- app_assoc.
  replace (n + S r1 + S r2) with (n + S (r1 + S r2)) by lia.
  reflexivity.
Qed.

(** X16.  [execute] on a new [Cumulator] fits the node on the array and
    hands the array back: for a [Cumulator] constructed without a dtype
    and a well-formed array of a supported dtype with [c] columns and at
    least one row, [execute] returns the array itself, and the node is
    then out of training with the array as its [data], its row count as
    [tlen], and [output_dim] defaulted to [c] where none was given. *)
Theorem Cumulator_execute_keeps_its_input
        (i o : option nat) (s0 : Node CumulatorAttrs) (x : ndarray)
        (c r : nat) :
  Cumulator___init__ i o None Cumulator_blank = Returned tt s0 ->
  shape x = [S r; c] -> well_formed x -> well_typed x ->
  existsb (dtype_eqb (arr_dtype x)) all_dtypes = true ->
  i = None \/ i = Some c ->
  exists s1,
    execute Cumulator_class x s0 = Returned x s1
    /\ data (attrs s1) = DataArray x
    /\ tlen (attrs s1) = S r
    /\ _training s1 = false
    /\ _input_dim s1 = Some c
    /\ _dtype s1 = Some (arr_dtype x)
    /\ _output_dim s1 = match o with Some k => Some k | None => Some c end.
Proof.
  intros Hinit Hshape Hwf Hty Hsup Hi.
  apply Cumulator___init___returned in Hinit. subst s0.
  set (t := arr_dtype x).
  assert (Hitems : map (astype t) (items x) = items x).
  { unfold well_typed in Hty. fold t in Hty.
    induction Hty as [|v l0 Hv _ IH]; simpl;
      [reflexivity | rewrite Hv, IH; reflexivity]. }
  assert (Hcast : refcast x (Some t) = x)
    by (apply refcast_same_dtype).
  assert (Hx : mk_ndarray t [S r; c] (items x) = x).
  { destruct x as [dt sh it]. simpl in *. subst. reflexivity. }
  assert (Hlen : length (items x) = S r * c).
  { unfold well_formed in Hwf. rewrite Hwf, Hshape. simpl. lia. }
  assert (Htrain :
            train Cumulator_class x
                  (mkNode i o None true 0 false (mkCumulator (DataList []) 0))
            = Returned tt (gathering o c t (items x) (S r))).
  { rewrite (Cumulator_train_returns _ x c r t [] 0); auto.
    simpl. rewrite Hcast. reflexivity. }
  assert (Hstop :
            stop_training Cumulator_class (gathering o c t (items x) (S r))
            = Returned tt
                (mkNode (Some c) o (Some t) false 1 false
                        (mkCumulator (DataArray x) (S r)))).
  { rewrite Cumulator_stop_training_returns by exact Hlen.
    rewrite Hitems, Hx. reflexivity. }
  unfold execute, _pre_execution_checks, loop_fuel, get_current_train_phase.
  unfold_monad. cbn [_train_phase _train_phase_started Z.eqb negb andb].
  cbn [Cumulator_class _get_train_seq length train_all_but_last].
  unfold_monad. rewrite Htrain.
  unfold get_remaining_train_phase at 1.
  cbn [gathering _train_phase Cumulator_class _get_train_seq length].
  cbn [Z.of_nat Pos.of_succ_nat Z.sub Z.add Z.opp Z.gtb Z.compare
       Pos.compare Pos.compare_cont Z.pos_sub].
  unfold _if_training_stop_training, is_training. unfold_monad.
  fold (gathering o c t (items x) (S r)).
  cbn [gathering _training]. fold (gathering o c t (items x) (S r)).
  rewrite Hstop.
  unfold get_remaining_train_phase.
  cbn [_train_phase Cumulator_class _get_train_seq length].
  cbn [Z.of_nat Pos.of_succ_nat Z.sub Z.add Z.opp Z.gtb Z.compare
       Pos.compare Pos.compare_cont Z.pos_sub].
  rewrite (_check_input_accepts Cumulator_class x _ c);
    try (simpl; congruence); try reflexivity.
  2:{ unfold ndim. rewrite Hshape. reflexivity. }
  2:{ unfold shape_at. rewrite Hshape. reflexivity. }
  2:{ unfold shape_at. rewrite Hshape. simpl. discriminate. }
  cbn [_output_dim _input_dim _dtype].
  destruct o as [k|]; unfold set_output_dim; unfold_monad; simpl;
    fold t; rewrite Hcast; eexists; repeat split; reflexivity.
Qed.
End CumulatorBatches.

(* ================================================================== *)
(** * Nodes that are not trainable *)
(* ================================================================== *)

Section NotTrainable.
Context `{Numx} {U : Type} (cls : NodeClass U).

Lemma only_locks_outside_training (s s' : Node U) :
  only_locks s s' -> outside_training s -> outside_training s'.
Proof.
  intros (_ & _ & _ & Ht & Hp & Hs & _) (Ht0 & Hp0 & Hs0).
  repeat split; congruence.
Qed.

Lemma train_outside_training (x : ndarray) (s : Node U) :
  outside_training s ->
  train cls x s
  = Raised (if is_trainable cls then TrainingFinishedException
            else IsNotTrainableException) s.
Proof.
  intros (Ht & _). unfold train, is_training. unfold_monad.
  destruct (is_trainable cls); simpl; [rewrite Ht|]; reflexivity.
Qed.

Lemma stop_training_outside_training (s : Node U) :
  outside_training s ->
  stop_training cls s = Raised TrainingFinishedException s.
Proof.
  intros (Ht & _). unfold stop_training, is_training. unfold_monad.
  rewrite Ht. simpl. rewrite Ht. reflexivity.
Qed.

Lemma perform_keeps_outside_training (op : operation) (s : Node U) :
  outside_training s -> outside_training (perform cls op s).
Proof.
  apply operations_preserve.
  - intros x s0 Hs0. rewrite (train_outside_training x s0 Hs0). exact Hs0.
  - intros s0 Hs0. rewrite (stop_training_outside_training s0 Hs0).
    exact Hs0.
  - intros x s0 Hs0. pose proof (_check_input_frame cls x s0) as Hf.
    destruct (_check_input cls x s0); auto;
      apply (only_locks_outside_training s0); assumption.
  - intros n s0 Hs0. unfold set_output_dim. unfold_monad.
    split_cases; auto.
  - intros A h s0 Hs0. unfold call. destruct (h s0); exact Hs0.
Qed.

(** X17.  A node that is not trainable never enters the training: in
    every state a caller can bring it to it is out of training, at phase
    -1 with no phase started; [train] raises the not-trainable error and
    [stop_training] the training-finished error, and neither changes
    the node. *)
Theorem not_trainable_node_never_trains (s : Node U) :
  is_trainable cls = false ->
  reachable cls s ->
  (_training s = false /\ _train_phase s = (-1)%Z
   /\ _train_phase_started s = false)
  /\ (forall x, train cls x s = Raised IsNotTrainableException s)
  /\ stop_training cls s = Raised TrainingFinishedException s.
Proof.
  intros Htr Hreach.
  assert (Hout : outside_training s).
  { revert s Hreach. apply reachable_ind_invariant.
    - intros s Hfresh.
      destruct (fresh_not_trainable cls s Htr Hfresh) as (Hp & Hs & Ht).
      repeat split; assumption.
    - apply perform_keeps_outside_training. }
  split; [exact Hout|]. split.
  - intros x. rewrite (train_outside_training x s Hout), Htr. reflexivity.
  - apply stop_training_outside_training, Hout.
Qed.
End NotTrainable.

(* ================================================================== *)
(** * The string representation *)
(* ================================================================== *)

Section Representation.
Context {U : Type}.

Lemma append_assoc (a b c : string) :
  ((a ++ b) ++ c)%string = (a ++ (b ++ c))%string.
Proof. induction a as [|x a IH]; simpl; [|rewrite IH]; reflexivity. Qed.

Lemma append_cancel_left (a b c : string) :
  (a ++ b)%string = (a ++ c)%string -> b = c.
Proof.
  induction a as [|x a IH]; simpl; intros Heq; [exact Heq|].
  injection Heq as Heq. apply IH, Heq.
Qed.

Lemma length_append (a b : string) :
  String.length (a ++ b) = String.length a + String.length b.
Proof. induction a as [|x a IH]; simpl; [|rewrite IH]; reflexivity. Qed.

Lemma append_cancel_right (a b c : string) :
  (a ++ c)%string = (b ++ c)%string -> a = b.
Proof.
  revert b. induction a as [|x a IH]; intros b Heq.
  - destruct b as [|y b]; [reflexivity|].
    apply (f_equal String.length) in Heq. simpl in Heq.
    rewrite length_append in Heq. lia.
  - destruct b as [|y b].
    + apply (f_equal String.length) in Heq. simpl in Heq.
      rewrite length_append in Heq. lia.
    + simpl in Heq. injection Heq as -> Heq. f_equal. apply IH, Heq.
Qed.

(** Two strings without a comma that are followed by a comma and a rest:
    the comma ends the first string. *)
Lemma split_at_comma (a a' r r' : string) :
  no_comma a = true -> no_comma a' = true ->
  (a ++ String comma r)%string = (a' ++ String comma r')%string ->
  a = a' /\ r = r'.
Proof.
  revert a'. induction a as [|x a IH]; intros a' Ha Ha' Heq.
  - destruct a' as [|y a']; simpl in *.
    + injection Heq as ->. auto.
    + injection Heq as <- _. simpl in Ha'. discriminate.
  - destruct a' as [|y a']; simpl in *.
    + injection Heq as -> _. simpl in Ha. discriminate.
    + injection Heq as -> Heq.
      apply andb_true_iff in Ha, Ha'.
      destruct (IH a' (proj2 Ha) (proj2 Ha') Heq) as [-> ->]. auto.
Qed.

Lemma no_comma_digits (d : Decimal.uint) :
  no_comma (DecimalString.NilEmpty.string_of_uint d) = true.
Proof. induction d; simpl; auto. Qed.

Lemma no_comma_str_dim (n : option nat) : no_comma (str_dim n) = true.
Proof.
  destruct n as [k|]; [apply no_comma_digits | reflexivity].
Qed.

Lemma str_int_inj (k k' : nat) : str_int k = str_int k' -> k = k'.
Proof.
  unfold str_int. intros Heq.
  apply DecimalNat.Unsigned.to_uint_inj.
  pose proof (DecimalString.NilEmpty.usu (Nat.to_uint k)) as Hk.
  rewrite Heq, DecimalString.NilEmpty.usu in Hk. congruence.
Qed.

Lemma str_int_not_None (k : nat) : str_int k <> "None"%string.
Proof.
  unfold str_int. destruct (Nat.to_uint k); simpl; discriminate.
Qed.

Lemma str_dim_inj (n n' : option nat) : str_dim n = str_dim n' -> n = n'.
Proof.
  destruct n as [k|], n' as [k'|]; simpl; intros Heq.
  - f_equal. apply str_int_inj, Heq.
  - exfalso. apply (str_int_not_None k Heq).
  - exfalso. apply (str_int_not_None k'). symmetry. exact Heq.
  - reflexivity.
Qed.

(** X18.  The [repr] of a node tells its [input_dim], [output_dim] and
    dtype: two nodes of one class whose [__repr__] strings are equal
    agree on the three, whatever the name of a dtype is. *)
Theorem repr_tells_dimensions_and_dtype (name : string) (s s' : Node U) :
  __repr__ name s = __repr__ name s' ->
  _input_dim s = _input_dim s'
  /\ _output_dim s = _output_dim s'
  /\ _dtype s = _dtype s'.
Proof.
  unfold __repr__. cbn [String.concat].
  rewrite !append_assoc. intros Heq.
  apply append_cancel_left in Heq. simpl in Heq.
  injection Heq as Heq.
  apply (split_at_comma (str_dim (_input_dim s)) (str_dim (_input_dim s')))
    in Heq; try apply no_comma_str_dim.
  destruct Heq as [Hin Heq]. apply str_dim_inj in Hin.
  injection Heq as Heq. rewrite ?append_assoc in Heq.
  apply (split_at_comma (str_dim (_output_dim s)) (str_dim (_output_dim s')))
    in Heq; try apply no_comma_str_dim.
  destruct Heq as [Hout Heq]. apply str_dim_inj in Hout.
  injection Heq as Heq.
  split; [exact Hin|]. split; [exact Hout|].
  destruct (_dtype s) as [t|], (_dtype s') as [t'|]; simpl in Heq;
    try discriminate; [|reflexivity].
  injection Heq as Heq. rewrite ?append_assoc in Heq.
  apply append_cancel_right in Heq. congruence.
Qed.
End Representation.

(* ================================================================== *)
(** * The further properties at the samples *)
(* ================================================================== *)

Section OnMoreSamples.
Import Samples MoreSamples.
#[local] Existing Instance numx_Z.

Lemma cumulator_trained_once_reachable :
  reachable Cumulator_class cumulator_trained_once.
Proof.
  exists new_cumulator, [Train batch_3x2].
  split; [exact new_cumulator_fresh | reflexivity].
Qed.

Lemma new_cumulator_phase_invariant :
  phase_invariant Cumulator_class new_cumulator.
Proof.
  apply fresh_phase_invariant;
    [reflexivity | discriminate | exact new_cumulator_fresh].
Qed.

Lemma CountingNode_steps_always_return : steps_always_return CountingNode.
Proof.
  split; [|split].
  - intros x s. eexists. reflexivity.
  - repeat constructor; intros; eexists; reflexivity.
  - intros x s. do 2 eexists. reflexivity.
Qed.

Lemma new_counting_node_fresh : fresh CountingNode new_counting_node.
Proof. exists None, None, None, 0. reflexivity. Qed.

Lemma construction_raises_only_on_unsupported_dtype_witness :
  exists s',
    __init__ FloatCumulator None None (Some int32) Cumulator_blank
    = Raised (NodeException (DtypeNotSupported int32)) s'.
Proof.
  apply (construction_raises_only_on_unsupported_dtype
           FloatCumulator None None (Some int32)
           (mkCumulator (DataList []) 0));
    reflexivity.
Defined.

Lemma setters_write_once_witness :
  set_input_dim (Some 3) cumulator_trained_once
  = Raised (NodeException (InputDimAlreadySet 2 3)) cumulator_trained_once.
Proof.
  pose proof (setters_write_once Cumulator_class cumulator_trained_once)
    as (Hin & _ & _).
  destruct (Hin 2 eq_refl) as (_ & _ & Hother).
  apply Hother. discriminate.
Defined.

Lemma reachable_dtype_is_supported_witness :
  existsb (dtype_eqb float64) (get_supported_dtypes Cumulator_class) = true.
Proof.
  apply (reachable_dtype_is_supported
           Cumulator_class cumulator_trained_once float64);
    [exact cumulator_trained_once_reachable | reflexivity].
Defined.

Lemma reachable_started_phase_knows_its_input_witness :
  _input_dim cumulator_trained_once <> None
  /\ _dtype cumulator_trained_once <> None.
Proof.
  pose proof (reachable_started_phase_knows_its_input
                Cumulator_class cumulator_trained_once
                cumulator_trained_once_reachable)
    as (_ & Hknown).
  apply Hknown. left. reflexivity.
Defined.

Lemma execute_returned_leaves_node_ready_witness :
  _training
    (state_after (execute Cumulator_class batch_3x2 new_cumulator)
                 new_cumulator)
  = false.
Proof.
  apply (execute_returned_leaves_node_ready
           Cumulator_class batch_3x2 batch_3x2 new_cumulator
           (state_after (execute Cumulator_class batch_3x2 new_cumulator)
                        new_cumulator));
    [right; exact new_cumulator_phase_invariant | reflexivity].
Defined.

Lemma inverse_never_sets_input_dim_or_dtype_witness :
  _output_dim
    (state_after (inverse FixedNode batch_3x2
                          (with_input_dim (Some 2) new_fixed_node))
                 new_fixed_node)
  = Some 2.
Proof.
  pose proof (inverse_never_sets_input_dim_or_dtype
                FixedNode batch_3x2 (with_input_dim (Some 2) new_fixed_node))
    as (_ & Hret).
  apply (Hret (Some batch_3x2)
              (state_after (inverse FixedNode batch_3x2
                                    (with_input_dim (Some 2) new_fixed_node))
                           new_fixed_node));
    [left; reflexivity | reflexivity].
Defined.

Lemma inverse_rejects_other_shapes_witness :
  inverse FixedNode batch_3x2 new_fixed_2_to_3
  = Raised (NodeException (YDimension 2 3)) new_fixed_2_to_3
  /\ inverse FixedNode flat_6 new_fixed_2_to_3
     = Raised (NodeException (YRank 1)) new_fixed_2_to_3.
Proof.
  pose proof (inverse_rejects_other_shapes
                FixedNode batch_3x2 new_fixed_2_to_3 3
                eq_refl eq_refl (or_introl eq_refl))
    as (_ & Hcols).
  pose proof (inverse_rejects_other_shapes
                FixedNode flat_6 new_fixed_2_to_3 3
                eq_refl eq_refl (or_introl eq_refl))
    as (Hrank & _).
  split.
  - apply Hcols; [reflexivity | cbv; discriminate].
  - apply Hrank. cbv. discriminate.
Defined.

Lemma forced_close_closes_one_phase_then_raises_witness :
  exists u,
    _if_training_stop_training TwoPhaseCumulator cumulator_trained_once
    = Raised (TrainingException PhasesNotCompleted)
             (close_phase TwoPhaseCumulator u cumulator_trained_once).
Proof.
  eexists.
  apply (forced_close_closes_one_phase_then_raises
           TwoPhaseCumulator cumulator_trained_once).
  - reflexivity.
  - reflexivity.
  - eexists. split; reflexivity.
  - cbv. reflexivity.
Defined.

Lemma stop_training_twice_raises_witness :
  stop_training Cumulator_class
    (state_after (stop_training Cumulator_class cumulator_trained_once)
                 cumulator_trained_once)
  = Raised TrainingFinishedException
      (state_after (stop_training Cumulator_class cumulator_trained_once)
                   cumulator_trained_once).
Proof.
  pose proof (stop_training_twice_raises
                Cumulator_class cumulator_trained_once
                (state_after
                   (stop_training Cumulator_class cumulator_trained_once)
                   cumulator_trained_once)
                eq_refl)
    as (_ & Hdone).
  apply Hdone. reflexivity.
Defined.

Lemma Node_train_is_not_implemented_witness :
  train Node_class batch_3x2 new_node
  = Raised NotImplementedError
      (with_train_phase_started true
         (state_after (_check_input Node_class batch_3x2 new_node) new_node)).
Proof.
  pose proof (Node_train_is_not_implemented batch_3x2 new_node)
    as (_ & Hraise).
  apply Hraise; reflexivity.
Defined.

Lemma execute_again_only_runs_the_execute_step_witness :
  _pre_execution_checks Cumulator_class batch_5x2
    (state_after (execute Cumulator_class batch_3x2 new_cumulator)
                 new_cumulator)
  = Returned tt
      (state_after (execute Cumulator_class batch_3x2 new_cumulator)
                   new_cumulator).
Proof.
  apply (execute_again_only_runs_the_execute_step
           Cumulator_class batch_3x2 batch_3x2 batch_5x2 new_cumulator
           (state_after (execute Cumulator_class batch_3x2 new_cumulator)
                        new_cumulator));
    try reflexivity.
  - right. exact new_cumulator_phase_invariant.
  - cbv. discriminate.
Defined.

Lemma default_inverse_undoes_default_execute_witness :
  inverse FixedNode batch_3x2
    (state_after (execute FixedNode batch_3x2 new_fixed_node) new_fixed_node)
  = Returned (Some batch_3x2)
      (state_after (execute FixedNode batch_3x2 new_fixed_node)
                   new_fixed_node).
Proof.
  apply (default_inverse_undoes_default_execute
           FixedNode batch_3x2
           (state_after (execute FixedNode batch_3x2 new_fixed_node)
                        new_fixed_node)
           float64);
    try reflexivity.
  - left. cbv. discriminate.
  - cbv. discriminate.
Defined.

Lemma execute_does_not_check_output_dim_witness :
  inverse FixedNode batch_3x2
    (state_after (execute FixedNode batch_3x2 new_fixed_2_to_3)
                 new_fixed_2_to_3)
  = Raised (NodeException (YDimension 2 3))
      (state_after (execute FixedNode batch_3x2 new_fixed_2_to_3)
                   new_fixed_2_to_3).
Proof.
  apply (execute_does_not_check_output_dim
           FixedNode batch_3x2
           (state_after (execute FixedNode batch_3x2 new_fixed_2_to_3)
                        new_fixed_2_to_3)
           3);
    try reflexivity.
  - left. cbv. discriminate.
  - cbv. discriminate.
  - cbv. discriminate.
  - cbv. discriminate.
Defined.

Lemma execute_trains_every_phase_witness :
  exists r s',
    execute CountingNode batch_3x2 new_counting_node = Returned r s'
    /\ _train_phase s' = 3%Z
    /\ _training s' = false.
Proof.
  apply (execute_trains_every_phase CountingNode batch_3x2 new_counting_node).
  - exact CountingNode_steps_always_return.
  - reflexivity.
  - discriminate.
  - exact new_counting_node_fresh.
  - reflexivity.
  - cbv. discriminate.
  - left. reflexivity.
  - right. reflexivity.
Defined.

Lemma Cumulator_one_batch_or_two_witness :
  train Cumulator_class (vstack batch_3x2 batch_5x2) new_cumulator
  = (train Cumulator_class batch_3x2 ;; train Cumulator_class batch_5x2)
      new_cumulator.
Proof.
  apply (Cumulator_one_batch_or_two
           new_cumulator batch_3x2 batch_5x2 2 2 4 float64 [] 0);
    try reflexivity.
  - left. reflexivity.
  - right. repeat split; reflexivity.
Defined.

Lemma Cumulator_execute_keeps_its_input_witness :
  exists s1,
    execute Cumulator_class batch_3x2 new_cumulator = Returned batch_3x2 s1
    /\ data (attrs s1) = DataArray batch_3x2.
Proof.
  destruct (Cumulator_execute_keeps_its_input
              None None new_cumulator batch_3x2 2 2)
    as (s1 & Hrun & Hdata & _).
  - reflexivity.
  - reflexivity.
  - reflexivity.
  - unfold well_typed. simpl. repeat constructor.
  - reflexivity.
  - left. reflexivity.
  - exists s1. split; assumption.
Defined.
Lemma new_fixed_node_reachable : reachable FixedNode new_fixed_node.
Proof.
  exists new_fixed_node, []. split; [|reflexivity].
  exists None, None, None, tt. reflexivity.
Qed.

Lemma not_trainable_node_never_trains_witness :
  train FixedNode batch_3x2 new_fixed_node
  = Raised IsNotTrainableException new_fixed_node.
Proof.
  destruct (not_trainable_node_never_trains
              FixedNode new_fixed_node eq_refl new_fixed_node_reachable)
    as (_ & Htrain & _).
  apply Htrain.
Defined.

Lemma repr_tells_dimensions_and_dtype_witness :
  _input_dim cumulator_trained_once
  = _input_dim (with_train_phase_started false cumulator_trained_once).
Proof.
  apply (repr_tells_dimensions_and_dtype
           "Cumulator"%string cumulator_trained_once
           (with_train_phase_started false cumulator_trained_once)).
  reflexivity.
Defined.
End OnMoreSamples.
